(** * UQpy: Latin hypercube sampling, copula joints and maximum likelihood

    A shallow embedding of three classes of the repository,

    - [UQpy/sampling/LatinHypercubeSampling.py]   (module [LHS]),
    - [UQpy/distributions/collection/JointCopula.py] (module [JC]),
    - [UQpy/inference/MLE.py]                     (module [Mle]),

    and the properties of them that the specification states.

    Python objects are records, attribute mutation is explicit state
    passing, and a raised exception is a result that carries the state the
    object was left in.  Floating point numbers are an abstract type of
    values: none of the three classes does arithmetic on them itself, that
    is left to collaborators (criteria, distributions, optimizers) which
    the classes only call. *)

From Stdlib Require Import ZArith QArith List Bool Lia String Ascii.
From Stdlib Require Import DecimalString DecimalNat.
From stdpp Require Import base option list strings gmap fin_maps.

Open Scope Z_scope.
Open Scope list_scope.

(** ** Exceptions *)

(** The exception classes that occur in the three files, either raised
    by the code itself ([ValueError]), by its [@beartype] decorators, by the
    interpreter ([TypeError], [IndexError], [AttributeError]) or by a
    collaborator ([ExternalError], with a tag chosen by the collaborator). *)
Inductive exn : Type :=
| BeartypeCallHintParamViolation
| ValueError (msg : string)
| TypeError
| IndexError
| AttributeError
| ExternalError (tag : nat).

(** ** Latin hypercube sampling *)

Module LHS.

Section Arrays.
Context {V : Type}.
Variable zero : V.

(** A numpy array of at most two dimensions.  A matrix is its shape and
    its indexing function; only the cells inside the shape are meant. *)
Inductive ndarray : Type :=
| Arr0 (x : V)
| Arr1 (v : list V)
| Arr2 (nrows ncols : nat) (cell : nat -> nat -> V).

Definition shape (a : ndarray) : list nat :=
  match a with
  | Arr0 _ => []
  | Arr1 v => [length v]
  | Arr2 r c _ => [r; c]
  end.

(** [np.zeros([n, d])] *)
Definition zeros (n d : nat) : ndarray := Arr2 n d (fun _ _ => zero).

(** [np.zeros_like(a)]; of [None] numpy makes a 0-d array. *)
Definition zeros_like (a : option ndarray) : ndarray :=
  match a with
  | None => Arr0 zero
  | Some (Arr0 _) => Arr0 zero
  | Some (Arr1 v) => Arr1 (repeat zero (length v))
  | Some (Arr2 r c _) => zeros r c
  end.

(** [a[i, j]], with the default [zero] outside a matrix. *)
Definition item (a : ndarray) (i j : nat) : V :=
  match a with
  | Arr2 r c f => f i j
  | _ => zero
  end.

(** [a[:, j]] *)
Definition column (a : ndarray) (j : nat) : exn + ndarray :=
  match a with
  | Arr2 r c f =>
      if (j <? c)%nat then inr (Arr1 (map (fun i => f i j) (seq 0 r)))
      else inl IndexError
  | _ => inl IndexError
  end.

(** What numpy makes of a value assigned to a slice of [r] cells: a
    scalar and a one-element vector are repeated, a vector of [r]
    elements is taken as it is, a leading axis of length one is dropped;
    anything else cannot be broadcast. *)
Definition broadcast_vector (r : nat) (v : list V) : option (list V) :=
  if (length v =? r)%nat then Some v
  else match v with
       | [x] => Some (repeat x r)
       | _ => None
       end.

Definition broadcast_to (r : nat) (value : ndarray) : option (list V) :=
  match value with
  | Arr0 x => Some (repeat x r)
  | Arr1 v => broadcast_vector r v
  | Arr2 1 c f => broadcast_vector r (map (f 0%nat) (seq 0 c))
  | Arr2 _ _ _ => None
  end.

(** [a[:, j] = value] on a value that is, or may be [None]. *)
Definition set_column (a : option ndarray) (j : nat) (value : ndarray)
  : exn + ndarray :=
  match a with
  | None => inl TypeError
  | Some (Arr2 r c f) =>
      if (j <? c)%nat then
        match broadcast_to r value with
        | Some v =>
            inr (Arr2 r c (fun i k => if (k =? j)%nat then nth i v zero
                                      else f i k))
        | None => inl (ValueError "could not broadcast input array")
        end
      else inl IndexError
  | Some _ => inl IndexError
  end.

(** The cells of column [j] of a matrix, as a list. *)
Definition column_cells (a : ndarray) (j : nat) : list V :=
  match a with
  | Arr2 r c f => map (fun i => f i j) (seq 0 r)
  | _ => []
  end.

End Arrays.

Arguments ndarray V : clear implicits.

Section Engine.
Context {V : Type}.
Variable zero : V.

(** An object that stands where the engine expects a distribution, as far
    as the type hint of the constructor and the engine look at it: whether
    it is an instance of [Distribution] (only the hint asks), whether it
    has an [icdf] method, and what the method does when called. *)
Record Distribution : Type := {
  isinstance_Distribution : bool;
  icdf : option (ndarray V -> exn + ndarray V)
}.

(** [hasattr(d, "icdf")] *)
Definition hasattr_icdf (d : Distribution) : bool :=
  match icdf d with Some _ => true | None => false end.

(** What can be passed as [distributions]: the cases that the
    [isinstance] tests of the engine and the type hint of its constructor
    tell apart.  A list is a list of whatever objects; [PyOtherObject] is
    an object that is neither a list nor an instance of [Distribution]. *)
Inductive py_distributions : Type :=
| PyList (l : list Distribution)
| PyContinuous1D (d : Distribution)
| PyJointIndependent (marginals : list Distribution)
| PyOtherDistribution
| PyOtherObject.

(** The abstract class [Criterion]: an object with state [C] and the two
    methods the engine calls.  Both may change the criterion and may
    raise. *)
Class Criterion (C : Type) : Type := {
  create_bins : C -> option (ndarray V) -> C * (exn + unit);
  generate_samples : C -> C * (exn + ndarray V)
}.

Context {C : Type} `{Criterion C}.

Record LatinHypercubeSampling : Type := {
  dist_object : py_distributions;
  criterion : C;
  samples_number : Z;
  samples : option (ndarray V);
  samplesU01 : ndarray V
}.

(** *** Methods as state transformers *)

(** A method body: it transforms the object and either returns a value
    or raises; the object is left as it was at the raise. *)
Definition Method (A : Type) : Type :=
  LatinHypercubeSampling -> LatinHypercubeSampling * (exn + A).

#[export] Instance Method_ret : MRet Method :=
  fun A a self => (self, inr a).

#[export] Instance Method_bind : MBind Method :=
  fun A B k m self =>
    match m self with
    | (self', inr a) => k a self'
    | (self', inl e) => (self', inl e)
    end.

Definition raise {A} (e : exn) : Method A := fun self => (self, inl e).

(** The result of a call that does not touch the object. *)
Definition call {A} (r : exn + A) : Method A := fun self => (self, r).

Definition get {A} (field : LatinHypercubeSampling -> A) : Method A :=
  fun self => (self, inr (field self)).

Definition set_samples_number (n : Z) : Method unit := fun self =>
  ({| dist_object := dist_object self; criterion := criterion self;
      samples_number := n; samples := samples self;
      samplesU01 := samplesU01 self |}, inr tt).

Definition set_samples (a : option (ndarray V)) : Method unit := fun self =>
  ({| dist_object := dist_object self; criterion := criterion self;
      samples_number := samples_number self; samples := a;
      samplesU01 := samplesU01 self |}, inr tt).

Definition set_samplesU01 (a : ndarray V) : Method unit := fun self =>
  ({| dist_object := dist_object self; criterion := criterion self;
      samples_number := samples_number self; samples := samples self;
      samplesU01 := a |}, inr tt).

(** A call of a method of [self.criterion]: the criterion changes even
    when the call raises. *)
Definition criterion_call {A} (f : C -> C * (exn + A)) : Method A :=
  fun self =>
    let '(c, r) := f (criterion self) in
    ({| dist_object := dist_object self; criterion := c;
        samples_number := samples_number self; samples := samples self;
        samplesU01 := samplesU01 self |}, r).

(** The check that [@beartype] makes of a [PositiveInteger] argument: an
    integer above zero (the type is declared outside the sources, the
    spec calls it a positive integer). *)
Definition check_PositiveInteger (n : Z) : Method unit :=
  if 0 <? n then mret tt else raise BeartypeCallHintParamViolation.

(** [self.samples[:, j] = d.icdf(u_lhs[:, j])] *)
Definition transform_column (f : ndarray V -> exn + ndarray V)
    (u_lhs : ndarray V) (j : nat) : Method unit :=
  u_j ← call (column u_lhs j);
  x_j ← call (f u_j);
  s ← get samples;
  s' ← call (set_column zero s j x_j);
  set_samples (Some s').

(** The loop of the list branch, over [self.dist_object[j:]]:
    [for j in range(len(ds)): if hasattr(ds[j], "icdf"): ...] *)
Fixpoint transform_list (ds : list Distribution) (u_lhs : ndarray V)
    (j : nat) : Method unit :=
  match ds with
  | [] => mret tt
  | d :: rest =>
      match icdf d with
      | Some f => transform_column f u_lhs j
      | None => mret tt
      end ;;
      transform_list rest u_lhs (S j)
  end.

(** The loop of the joint branch, which calls [icdf] without asking for
    it: [for j in range(len(marginals)): ...] *)
Fixpoint transform_marginals (ms : list Distribution) (u_lhs : ndarray V)
    (j : nat) : Method unit :=
  match ms with
  | [] => mret tt
  | m :: rest =>
      match icdf m with
      | Some f => transform_column f u_lhs j
      | None => raise AttributeError
      end ;;
      transform_marginals rest u_lhs (S j)
  end.

(** The three [isinstance] branches that end [run] (its lines 87 to
    99), tried in the order list, joint, single. *)
Definition transform (d : py_distributions) (u_lhs : ndarray V)
  : Method unit :=
  match d with
  | PyList ds => transform_list ds u_lhs 0
  | PyJointIndependent ms =>
      if forallb hasattr_icdf ms then transform_marginals ms u_lhs 0
      else mret tt
  | PyContinuous1D d =>
      match icdf d with
      | Some f => x ← call (f u_lhs); set_samples (Some x)
      | None => mret tt
      end
  | _ => mret tt
  end.

(** [LatinHypercubeSampling.run] *)
Definition run (n : Z) : Method unit :=
  check_PositiveInteger n ;;
  set_samples_number n ;;
  s ← get samples;
  criterion_call (fun c => create_bins c s) ;;
  u_lhs ← criterion_call generate_samples;
  set_samplesU01 u_lhs ;;
  d ← get dist_object;
  transform d u_lhs.

(** The matrix that the constructor allocates for [self.samples]. *)
Definition allocate_samples (d : py_distributions) (n : Z)
  : option (ndarray V) :=
  match d with
  | PyList ds => Some (zeros zero (Z.to_nat n) (length ds))
  | PyContinuous1D _ => Some (zeros zero (Z.to_nat n) 1)
  | PyJointIndependent ms => Some (zeros zero (Z.to_nat n) (length ms))
  | _ => None
  end.

(** The object as the constructor has it just before it calls [run]. *)
Definition allocate (d : py_distributions) (n : Z) (c : C)
  : LatinHypercubeSampling :=
  {| dist_object := d; criterion := c; samples_number := n;
     samples := allocate_samples d n;
     samplesU01 := zeros_like zero (allocate_samples d n) |}.

(** The check that [@beartype] makes of
    [distributions: Union[Distribution, list[Distribution]]].  The
    decorator checks a list in constant time: at every call it draws a
    number at random, [draw], and looks at the one item at position
    [draw % len(distributions)]; the other items are not looked at, and an
    empty list passes. *)
Definition check_distributions (draw : nat) (d : py_distributions) : bool :=
  match d with
  | PyList l =>
      match l !! (draw mod length l)%nat with
      | Some item => isinstance_Distribution item
      | None => true
      end
  | PyOtherObject => false
  | _ => true
  end.

(** [LatinHypercubeSampling.__init__], at a call where [@beartype] draws
    [draw]: the new engine, or the exception that leaves the caller without
    one.  A [PositiveInteger] is never [None], so [run] is always
    called. *)
Definition __init__ (draw : nat) (distributions : py_distributions) (n : Z)
    (c : C) : exn + LatinHypercubeSampling :=
  if negb (check_distributions draw distributions) || negb (0 <? n)
  then inl BeartypeCallHintParamViolation
  else
    match run n (allocate distributions n c) with
    | (self, inr _) => inr self
    | (_, inl e) => inl e
    end.

(** Modelled from the spec: what section 6 asks of a criterion, whose
    classes are not among the sources.  [create_bins] takes the shape of
    the matrix it is given, and [generate_samples] returns a matrix of
    that shape. *)
Definition conforming : Prop :=
  forall (c c1 c2 : C) (s u : ndarray V),
    create_bins c (Some s) = (c1, inr tt) ->
    generate_samples c1 = (c2, inr u) ->
    shape u = shape s.

(** [a[i, j]] of an attribute that may be [None]. *)
Definition cell (a : option (ndarray V)) (i j : nat) : V :=
  match a with
  | Some a => item zero a i j
  | None => zero
  end.

(** [a[:, j]] of an attribute that may be [None], as a list. *)
Definition cells (a : option (ndarray V)) (j : nat) : list V :=
  match a with
  | Some a => column_cells a j
  | None => []
  end.

(** The object that [run] hands to its last part. *)
Definition sampled (self : LatinHypercubeSampling) (n : Z) (c : C)
    (u : ndarray V) : LatinHypercubeSampling :=
  {| dist_object := dist_object self; criterion := c; samples_number := n;
     samples := samples self; samplesU01 := u |}.

(** The object after [self.samples = s]. *)
Definition with_samples (self : LatinHypercubeSampling)
    (s : option (ndarray V)) : LatinHypercubeSampling :=
  {| dist_object := dist_object self; criterion := criterion self;
     samples_number := samples_number self; samples := s;
     samplesU01 := samplesU01 self |}.

(** [same_but_samples self self']: only [samples] may differ. *)
Definition same_but_samples (self self' : LatinHypercubeSampling) : Prop :=
  dist_object self' = dist_object self /\
  criterion self' = criterion self /\
  samples_number self' = samples_number self /\
  samplesU01 self' = samplesU01 self.

(** [kept P s s']: the attribute [s'] has the shape of [s] and agrees
    with it on the columns in [P]. *)
Definition kept (P : nat -> Prop) (s s' : option (ndarray V)) : Prop :=
  option_map shape s' = option_map shape s /\
  forall i k, P k -> cell s' i k = cell s i k.

(** [transformed u s s' j d]: what the list branch does to column [j],
    whose marginal is [d], on the way from [s] to [s']. *)
Definition transformed (u : ndarray V) (s s' : option (ndarray V))
    (j : nat) (d : Distribution) : Prop :=
  match icdf d with
  | None => cells s' j = cells s j
  | Some f =>
      exists u_j x_j r c g,
        column u j = inr u_j /\ f u_j = inr x_j /\
        s' = Some (Arr2 r c g) /\
        broadcast_to r x_j = Some (cells s' j)
  end.


(** The same engine over other [distributions]. *)
Definition with_dist_object (self : LatinHypercubeSampling)
    (d : py_distributions) : LatinHypercubeSampling :=
  {| dist_object := d; criterion := criterion self;
     samples_number := samples_number self; samples := samples self;
     samplesU01 := samplesU01 self |}.

End Engine.

Arguments Distribution V : clear implicits.
Arguments py_distributions V : clear implicits.
Arguments LatinHypercubeSampling V C : clear implicits.

(** *** A concrete criterion and concrete distributions over [Q] *)

(** Modelled from the spec: the Centered criterion of section 4.3, whose
    class is not among the sources.  Each sample sits on the midpoint of
    its stratum.  [create_bins] reads the shape of the matrix (of [None]
    it cannot, and it fails on fewer than one stratum, section 4.1),
    [generate_samples] fills a matrix of that shape.  [strata t n j i] is the stratum, of [n], that the [t]-th draw
    gives to row [i] on axis [j]; [draws] counts the draws made. *)
Record Centered : Type := {
  bins : option (nat * nat);
  draws : nat;
  strata : nat -> nat -> nat -> nat -> nat
}.

Definition Centered_create_bins (c : Centered) (s : option (ndarray Q))
  : Centered * (exn + unit) :=
  match s with
  | Some (Arr2 0 _ _) => (c, inl (ValueError "InvalidDesignError"))
  | Some (Arr2 n d _) =>
      ({| bins := Some (n, d); draws := draws c; strata := strata c |}, inr tt)
  | Some _ => (c, inl IndexError)
  | None => (c, inl AttributeError)
  end.

Definition Centered_generate_samples (c : Centered)
  : Centered * (exn + ndarray Q) :=
  match bins c with
  | Some (n, d) =>
      ({| bins := bins c; draws := S (draws c); strata := strata c |},
       inr (Arr2 n d (fun i j =>
         Qmake (2 * Z.of_nat (strata c (draws c) n j i) + 1)
               (Pos.of_nat (2 * n)))))
  | None => (c, inl AttributeError)
  end.

#[export] Instance Centered_Criterion : Criterion (V := Q) Centered := {
  create_bins := Centered_create_bins;
  generate_samples := Centered_generate_samples
}.

(** A Centered criterion whose draws alternate between the rows in order
    and the rows in reverse order, on every axis. *)
Definition centered : Centered :=
  {| bins := None; draws := 0;
     strata := fun t n _ i => if Nat.even t then i else (n - 1 - i)%nat |}.

(** Apply [g] to every element of an array. *)
Definition map_array (g : Q -> Q) (a : ndarray Q) : ndarray Q :=
  match a with
  | Arr0 x => Arr0 (g x)
  | Arr1 v => Arr1 (map g v)
  | Arr2 r c f => Arr2 r c (fun i j => g (f i j))
  end.

(** Uniform on [0, 4): [icdf(u) = 4 u]. *)
Definition uniform04 : Distribution Q :=
  {| isinstance_Distribution := true;
     icdf := Some (fun a => inr (map_array (Qmult 4) a)) |}.

(** A distribution without [icdf]. *)
Definition no_icdf : Distribution Q :=
  {| isinstance_Distribution := true; icdf := None |}.


(** A distribution whose [icdf] is the identity, but raises when the first
    probability it is given lies above one half. *)
Definition lower_half : Distribution Q :=
  {| isinstance_Distribution := true;
     icdf := Some (fun a =>
       match a with
       | Arr1 (x :: _) =>
           if Qle_bool x (1 # 2) then inr a else inl (ValueError "domain")
       | _ => inr a
       end) |}.

(** A discrete distribution of one variable, a Poisson one say: an
    instance of [Distribution], single and one-dimensional, of a class
    ([DistributionDiscrete1D]) that no [isinstance] test of the engine
    names. *)
Definition poisson : py_distributions Q := PyOtherDistribution.

(** The engine that the constructor leaves behind when it succeeds. *)
Definition constructed {C : Type} `{!Criterion (V := Q) C}
    (d : py_distributions Q) (n : Z) (c : C) : LatinHypercubeSampling Q C :=
  fst (run 0%Q n (allocate 0%Q d n c)).

(** The rows of a matrix, to look at it. *)
Definition rows (a : ndarray Q) : list (list Q) :=
  match a with
  | Arr2 r c f => map (fun i => map (f i) (seq 0 c)) (seq 0 r)
  | Arr1 v => [v]
  | Arr0 x => [[x]]
  end.

Definition option_rows (a : option (ndarray Q)) : option (list (list Q)) :=
  option_map rows a.

End LHS.

(** ** Joint distributions with a copula *)

Module JC.

(** *** Python strings *)

(** [s.split(sep)] for a separator of one character. *)
Fixpoint split (sep : ascii) (s : string) : list string :=
  match s with
  | EmptyString => [EmptyString]
  | String c s' =>
      if Ascii.eqb c sep then EmptyString :: split sep s'
      else match split sep s' with
           | w :: ws => String c w :: ws
           | [] => [String c EmptyString]
           end
  end.

(** [sep.join(l)] *)
Fixpoint join (sep : string) (l : list string) : string :=
  match l with
  | [] => EmptyString
  | [w] => w
  | w :: ws => w +:+ sep +:+ join sep ws
  end.

(** [c in s] *)
Fixpoint contains (c : ascii) (s : string) : bool :=
  match s with
  | EmptyString => false
  | String c' s' => Ascii.eqb c' c || contains c s'
  end.

(** [str(i)] of an index. *)
Definition str (i : nat) : string := NilZero.string_of_uint (Nat.to_uint i).

(** [int(s)] where [s] is a numeral; [None] stands for its [ValueError].
    (Python also reads signs, blanks and digit separators, which no key
    that [update_parameters] lets through has.) *)
Definition int (s : string) : option nat :=
  option_map Nat.of_uint (NilZero.uint_of_string s).

(** [key_split = key_indexed.split("_")] and then
    [key, index = "_".join(key_split[:-1]), key_split[-1]] *)
Definition key_index (key_indexed : string) : string * string :=
  let key_split := split "_" key_indexed in
  (join "_" (List.removelast key_split), List.last key_split EmptyString).

Section Joint.
Context {V : Type}.

(** A distribution or copula object, as far as [JointCopula] looks at
    it: its [parameters] dictionary, its [ordered_parameters] and the
    names of the methods it has. *)
Record Object : Type := {
  parameters : gmap string V;
  ordered_parameters : list string;
  methods : list string
}.

(** [hasattr(o, name)] for a method name. *)
Definition hasattr (o : Object) (name : string) : bool :=
  bool_decide (name ∈ methods o).

(** Modelled from the spec: [get_parameters] of the base class of the
    marginals and of the copula, which is not among the sources.  The
    parameters "are only stored as attributes of the marginals/copula
    objects" (docstring of [JointCopula]), and the method returns that
    attribute. *)
Definition Object_get_parameters (o : Object) : gmap string V :=
  parameters o.

(** [o.parameters[key] = value] *)
Definition set_parameter (o : Object) (key : string) (value : V) : Object :=
  {| parameters := <[key := value]> (parameters o);
     ordered_parameters := ordered_parameters o;
     methods := methods o |}.

(** The static method [Copula.check_marginals] belongs to a base class
    that is not among the sources: it is a parameter. *)
Variable check_marginals : list Object -> exn + unit.

(** The three functions that the constructor may bind as methods. *)
Inductive method : Type := joint_cdf | joint_pdf | joint_log_pdf.

(** A [JointCopula] object.  The marginals are references: the same
    distribution object may be listed more than once, and other code may
    hold it too.  The copula object is held by value, no claim depends
    on who else holds it.  [cdf], [pdf] and [log_pdf] are the instance
    attributes of these names, [None] when the constructor did not set
    them (the base class defines none of them). *)
Record JointCopula : Type := {
  marginals : list nat;
  copula : Object;
  self_ordered_parameters : list string;
  cdf : option method;
  pdf : option method;
  log_pdf : option method
}.

(** The distribution objects that exist, by reference. *)
Definition heap : Type := gmap nat Object.

(** The objects behind a list of references; a reference always has
    its object, [None] cannot come up in Python. *)
Definition deref (h : heap) (ms : list nat) : option (list Object) :=
  mapM (fun l => h !! l) ms.

(** [[key + "_" + str(i) for key in m.ordered_parameters]], for each
    marginal in turn from index [i] on. *)
Fixpoint ordered_names (ms : list Object) (i : nat) : list string :=
  match ms with
  | [] => []
  | m :: rest =>
      map (fun key => (key +:+ "_") +:+ str i) (ordered_parameters m)
        ++ ordered_names rest (S i)
  end.

(** [JointCopula.__init__].  The arguments are typed as the hints say,
    so the [isinstance] tests on them cannot fail. *)
Definition __init__ (h : heap) (ms : list nat) (c : Object)
  : exn + JointCopula :=
  match deref h ms with
  | None => inl AttributeError
  | Some objs =>
      let names :=
        ordered_names objs 0
          ++ map (fun key => key +:+ "_c") (ordered_parameters c) in
      if negb (forallb (fun m => hasattr m "cdf") objs) then
        inl (ValueError
          "All the marginals should have a cdf method in order to define a joint with copula.")
      else
        match check_marginals objs with
        | inl e => inl e
        | inr _ =>
            inr {| marginals := ms; copula := c;
                   self_ordered_parameters := names;
                   cdf := if hasattr c "evaluate_cdf"
                          then Some joint_cdf else None;
                   pdf := if forallb (fun m => hasattr m "pdf") objs
                             && hasattr c "evaluate_pdf"
                          then Some joint_pdf else None;
                   log_pdf := if forallb (fun m => hasattr m "log_pdf") objs
                                 && hasattr c "evaluate_pdf"
                              then Some joint_log_pdf else None |}
        end
  end.

(** [for key, value in d.items(): params[key + suffix] = value] *)
Definition add_items (suffix : string) (d params : gmap string V)
  : gmap string V :=
  map_fold (fun key value acc => <[key +:+ suffix := value]> acc) params d.

(** The first loop of [get_parameters], from the marginal of index [i]
    on. *)
Fixpoint marginal_items (h : heap) (ms : list nat) (i : nat)
    (params : gmap string V) : option (gmap string V) :=
  match ms with
  | [] => Some params
  | l :: rest =>
      match h !! l with
      | Some m =>
          marginal_items h rest (S i)
            (add_items ("_" +:+ str i) (Object_get_parameters m) params)
      | None => None
      end
  end.

(** [JointCopula.get_parameters] *)
Definition get_parameters (h : heap) (self : JointCopula)
  : exn + gmap string V :=
  match marginal_items h (marginals self) 0 ∅ with
  | Some params =>
      inr (add_items "_c" (Object_get_parameters (copula self)) params)
  | None => inl AttributeError
  end.

(** The state that [update_parameters] works on. *)
Definition state : Type := heap * JointCopula.

Definition with_copula (self : JointCopula) (c : Object) : JointCopula :=
  {| marginals := marginals self; copula := c;
     self_ordered_parameters := self_ordered_parameters self;
     cdf := cdf self; pdf := pdf self; log_pdf := log_pdf self |}.

(** One turn of the loop of [update_parameters]. *)
Definition update_parameter (all_keys : gset string)
    (key_indexed : string) (value : V) (st : state) : state * (exn + unit) :=
  let '(h, self) := st in
  if bool_decide (key_indexed ∉ all_keys) then
    (st, inl (ValueError ("Unrecognized keyword argument " +:+ key_indexed)))
  else
    let '(key, index) := key_index key_indexed in
    if String.eqb index "c" then
      ((h, with_copula self (set_parameter (copula self) key value)), inr tt)
    else
      match int index with
      | None => (st, inl (ValueError "invalid literal for int()"))
      | Some i =>
          match marginals self !! i with
          | None => (st, inl IndexError)
          | Some l =>
              match h !! l with
              | None => (st, inl AttributeError)
              | Some m => ((<[l := set_parameter m key value]> h, self), inr tt)
              end
          end
      end.

(** The loop of [update_parameters] over the keyword arguments. *)
Fixpoint update_loop (all_keys : gset string) (kwargs : list (string * V))
    (st : state) : state * (exn + unit) :=
  match kwargs with
  | [] => (st, inr tt)
  | (key_indexed, value) :: rest =>
      match update_parameter all_keys key_indexed value st with
      | (st', inr _) => update_loop all_keys rest st'
      | (st', inl e) => (st', inl e)
      end
  end.

(** [JointCopula.update_parameters]; its keyword arguments come in
    their order, each name once. *)
Definition update_parameters (kwargs : list (string * V)) (st : state)
  : state * (exn + unit) :=
  match get_parameters (fst st) (snd st) with
  | inl e => (st, inl e)
  | inr params => update_loop (dom params) kwargs st
  end.

End Joint.

Arguments Object V : clear implicits.
Arguments JointCopula V : clear implicits.
Arguments heap V : clear implicits.
Arguments state V : clear implicits.

(** *** Concrete objects, with integers for parameter values *)

(** A [check_marginals] that accepts any marginals. *)
Definition no_check : list (Object Z) -> exn + unit := fun _ => inr tt.

Definition normal : Object Z :=
  {| parameters := <["loc" := 0]> (<["scale" := 1]> ∅);
     ordered_parameters := ["loc"; "scale"];
     methods := ["cdf"; "pdf"; "log_pdf"; "icdf"] |}.

(** A distribution one of whose parameter names has the separator in it,
    and which has no [log_pdf]. *)
Definition mixture : Object Z :=
  {| parameters := <["n_1" := 3]> (<["n" := 4]> ∅);
     ordered_parameters := ["n_1"; "n"];
     methods := ["cdf"; "pdf"] |}.

(** A distribution without [cdf]. *)
Definition sampler : Object Z :=
  {| parameters := <["loc" := 0]> ∅;
     ordered_parameters := ["loc"];
     methods := ["rvs"] |}.

Definition gumbel : Object Z :=
  {| parameters := <["theta" := 2]> ∅;
     ordered_parameters := ["theta"];
     methods := ["evaluate_cdf"; "evaluate_pdf"] |}.

(** Two distribution objects, and a joint of them. *)
Definition two_objects : heap Z := <[0%nat := mixture]> (<[1%nat := normal]> ∅).

Definition joint_of_two : JointCopula Z :=
  {| marginals := [0; 1]%nat; copula := gumbel;
     self_ordered_parameters :=
       ["n_1_0"; "n_0"; "loc_1"; "scale_1"; "theta_c"];
     cdf := Some joint_cdf; pdf := Some joint_pdf; log_pdf := None |}.

Definition parameters_of_two : gmap string Z :=
  list_to_map [("n_1_0", 3); ("n_0", 4); ("loc_1", 0); ("scale_1", 1);
               ("theta_c", 2)].

(** One distribution object, and a joint that lists it twice. *)
Definition one_object : heap Z := <[0%nat := normal]> ∅.

Definition joint_of_one_twice : JointCopula Z :=
  {| marginals := [0; 0]%nat; copula := gumbel;
     self_ordered_parameters :=
       ["loc_0"; "scale_0"; "loc_1"; "scale_1"; "theta_c"];
     cdf := Some joint_cdf; pdf := Some joint_pdf;
     log_pdf := Some joint_log_pdf |}.

End JC.

(** ** Maximum likelihood estimation *)

Module Mle.

Section Estimator.
(** [F] stands for the floating point numbers and [Data] for the data
    sets.  [gt a b] is [a > b] and [neg a] is [(-1.0) * a]. *)
Context {F Data : Type}.
Variable gt : F -> F -> bool.
Variable neg : F -> F.

(** What [optimizer.optimize] returns: the point [res.x] and the value
    [res.fun] there. *)
Record OptimizeResult : Type := {
  x : list F;
  fun_ : F
}.

(** The optimizer, a collaborator: [optimize(function, x0)]. *)
Record Optimizer : Type := {
  optimize : (list F -> F) -> list F -> OptimizeResult
}.

(** The inference model, a collaborator.  [fit] is there if the model
    has [distributions] with a [fit] method; [fit t data] is what its
    [t]-th call returns, as the vector of the values of [list_params]. *)
Record InferenceModel : Type := {
  n_parameters : nat;
  evaluate_log_likelihood : list F -> Data -> F;
  fit : option (nat -> Data -> list F)
}.

(** An [initial_parameters] array, of shape [(n_parameters,)] or
    [(nstarts, n_parameters)]. *)
Inductive array : Type :=
| Array1 (v : list F)
| Array2 (ncols : nat) (rows : list (list F)).

(** The rows of the array of random initial guesses for a given
    [n_optimizations], drawn from [Uniform()] and scaled to the bounds of
    the optimizer if it has bounds: the random draw is a parameter. *)
Variable initial_guesses : Z -> exn + list (list F).

Record MLE : Type := {
  inference_model : InferenceModel;
  optimizer : Optimizer;
  data : option Data;
  n_optimizations : option Z;
  initial_parameters : option array;
  mle : option (list F);
  max_log_like : option F
}.

Definition with_data (self : MLE) (d : Data) : MLE :=
  {| inference_model := inference_model self; optimizer := optimizer self;
     data := Some d; n_optimizations := n_optimizations self;
     initial_parameters := initial_parameters self;
     mle := mle self; max_log_like := max_log_like self |}.

Definition with_result (self : MLE) (mle_tmp : list F) (max_log_like_tmp : F)
  : MLE :=
  {| inference_model := inference_model self; optimizer := optimizer self;
     data := data self; n_optimizations := n_optimizations self;
     initial_parameters := initial_parameters self;
     mle := Some mle_tmp; max_log_like := Some max_log_like_tmp |}.

(** The "Save result" step of both loops:
    [if self.mle is None or max_log_like_tmp > self.max_log_like: ...].
    A number cannot be compared with [None]. *)
Definition save_result (r : list F * F) (self : MLE) : MLE * (exn + unit) :=
  let '(mle_tmp, max_log_like_tmp) := r in
  match mle self, max_log_like self with
  | None, _ => (with_result self mle_tmp max_log_like_tmp, inr tt)
  | Some _, Some best =>
      if gt max_log_like_tmp best
      then (with_result self mle_tmp max_log_like_tmp, inr tt)
      else (self, inr tt)
  | Some _, None => (self, inl TypeError)
  end.

(** [MLE._evaluate_func_to_minimize], with the data of the run. *)
Definition _evaluate_func_to_minimize (self : MLE) (d : Data)
    (one_param : list F) : F :=
  neg (evaluate_log_likelihood (inference_model self) one_param d).

(** What one turn of the loop of [_run_optimization] gets from the
    optimizer: [res.x] and [(-1.0) * res.fun]. *)
Definition optimization_result (self : MLE) (d : Data) (x0_ : list F)
  : list F * F :=
  let res := optimize (optimizer self) (_evaluate_func_to_minimize self d) x0_ in
  (x res, neg (fun_ res)).

(** The loop of [_run_optimization]: [for x0_ in initial_parameters]. *)
Fixpoint optimization_loop (d : Data) (starts : list (list F)) (self : MLE)
  : MLE * (exn + unit) :=
  match starts with
  | [] => (self, inr tt)
  | x0_ :: rest =>
      match save_result (optimization_result self d x0_) self with
      | (self', inr _) => optimization_loop d rest self'
      | (self', inl e) => (self', inl e)
      end
  end.

(** The first half of [_run_optimization]: the initial guesses. *)
Definition starting_points (self : MLE) (initial_parameters : option array)
    (n_optimizations : option Z) : exn + list (list F) :=
  match initial_parameters with
  | None =>
      match n_optimizations with
      | None => inl TypeError
      | Some n => initial_guesses n
      end
  | Some a =>
      let '(ncols, rows) :=
        match a with
        | Array1 v => (length v, [v])
        | Array2 ncols rows => (ncols, rows)
        end in
      if negb (ncols =? n_parameters (inference_model self))%nat
      then inl (ValueError "UQpy: Wrong dimensions in x0")
      else inr rows
  end.

(** [MLE._run_optimization] *)
Definition _run_optimization (d : Data) (initial_parameters : option array)
    (n_optimizations : option Z) (self : MLE) : MLE * (exn + unit) :=
  match starting_points self initial_parameters n_optimizations with
  | inl e => (self, inl e)
  | inr starts => optimization_loop d starts self
  end.

(** What one turn of the loop of [_run_distribution_fit] computes: the
    fitted vector and its log likelihood. *)
Definition fit_result (self : MLE) (d : Data) (fit : nat -> Data -> list F)
    (t : nat) : list F * F :=
  let mle_tmp := fit t d in
  (mle_tmp, evaluate_log_likelihood (inference_model self) mle_tmp d).

(** The loop of [_run_distribution_fit]: [for _ in range(n)], over the
    turns that are left. *)
Fixpoint fit_loop (d : Data) (fit : nat -> Data -> list F)
    (turns : list nat) (self : MLE) : MLE * (exn + unit) :=
  match turns with
  | [] => (self, inr tt)
  | t :: rest =>
      match save_result (fit_result self d fit t) self with
      | (self', inr _) => fit_loop d fit rest self'
      | (self', inl e) => (self', inl e)
      end
  end.

(** [MLE._run_distribution_fit]; [range(None)] is a [TypeError]. *)
Definition _run_distribution_fit (d : Data) (fit : nat -> Data -> list F)
    (n_optimizations : option Z) (self : MLE) : MLE * (exn + unit) :=
  match n_optimizations with
  | None => (self, inl TypeError)
  | Some n => fit_loop d fit (seq 0 (Z.to_nat n)) self
  end.

(** [MLE.run] *)
Definition run (d : Data) (self : MLE) : MLE * (exn + unit) :=
  let self := with_data self d in
  match fit (inference_model self) with
  | Some f => _run_distribution_fit d f (n_optimizations self) self
  | None =>
      _run_optimization d (initial_parameters self) (n_optimizations self)
        self
  end.

(** [MLE.__init__]: the estimator, or the exception of its [run]. *)
Definition __init__ (inference_model : InferenceModel)
    (n_optimizations : option Z) (initial_parameters : option array)
    (data : option Data) (optimizer : Optimizer) : exn + MLE :=
  let self :=
    {| inference_model := inference_model; optimizer := optimizer;
       data := data; n_optimizations := n_optimizations;
       initial_parameters := initial_parameters;
       mle := None; max_log_like := None |} in
  match data with
  | None => inr self
  | Some d =>
      match run d self with
      | (self', inr _) => inr self'
      | (_, inl e) => inl e
      end
  end.

(** The results of the starts, or fit trials, of a [run] on [d], in the
    order in which [run] saves them. *)
Definition trials (d : Data) (self : MLE) : exn + list (list F * F) :=
  match fit (inference_model self) with
  | Some f =>
      match n_optimizations self with
      | None => inl TypeError
      | Some n =>
          inr (map (fit_result (with_data self d) d f) (seq 0 (Z.to_nat n)))
      end
  | None =>
      match starting_points (with_data self d) (initial_parameters self)
              (n_optimizations self) with
      | inl e => inl e
      | inr starts =>
          inr (map (optimization_result (with_data self d) d) starts)
      end
  end.

(** Saving a list of results one after the other. *)
Fixpoint save_results (rs : list (list F * F)) (self : MLE)
  : MLE * (exn + unit) :=
  match rs with
  | [] => (self, inr tt)
  | r :: rest =>
      match save_result r self with
      | (self', inr _) => save_results rest self'
      | (self', inl e) => (self', inl e)
      end
  end.

(** The pair of [mle] and [max_log_like], if both are set. *)
Definition stored (self : MLE) : option (list F * F) :=
  match mle self, max_log_like self with
  | Some m, Some s => Some (m, s)
  | _, _ => None
  end.

(** What is stored before a run, as a list of at most one result. *)
Definition previous (self : MLE) : list (list F * F) :=
  match stored self with
  | Some r => [r]
  | None => []
  end.

(** [best_of rs r]: [r] is the earliest of the results [rs] that no
    result exceeds: it stands at some index [k], no result is greater, and
    it is greater than every result before [k]. *)
Definition best_of (rs : list (list F * F)) (r : list F * F) : Prop :=
  exists k,
    rs !! k = Some r /\
    (forall j r', rs !! j = Some r' -> gt (snd r') (snd r) = false) /\
    (forall j r', (j < k)%nat -> rs !! j = Some r' ->
       gt (snd r) (snd r') = true).

(** [maximum_of ge rs s], for [ge a b] the comparison [a >= b]: [s] is
    the maximum of the log likelihoods of the results [rs], the log
    likelihood of one of them and at least that of each. *)
Definition maximum_of (ge : F -> F -> bool) (rs : list (list F * F)) (s : F)
  : Prop :=
  (exists m, In (m, s) rs) /\ forall r, In r rs -> ge s (snd r) = true.

End Estimator.

Arguments MLE F Data : clear implicits.
Arguments InferenceModel F Data : clear implicits.
Arguments Optimizer F : clear implicits.
Arguments OptimizeResult F : clear implicits.
Arguments array F : clear implicits.

(** *** A concrete estimation, with integers for numbers *)

(** The log likelihood [-(p - 3)^2] of a model of one parameter. *)
Definition parabola : InferenceModel Z unit :=
  {| n_parameters := 1;
     evaluate_log_likelihood := fun p _ =>
       match p with
       | [a] => - ((a - 3) * (a - 3))
       | _ => -100
       end;
     fit := None |}.

(** An optimizer that stays where it starts. *)
Definition lazy : Optimizer Z :=
  {| optimize := fun f x0 => {| x := x0; fun_ := f x0 |} |}.

Definition no_guesses : Z -> exn + list (list Z) := fun _ => inr [].

(** Four starting points, the second and the third of which are both
    best. *)
Definition four_starts : array Z := Array2 1 [[1]; [2]; [4]; [5]].

Definition fresh : MLE Z unit :=
  {| inference_model := parabola; optimizer := lazy; data := None;
     n_optimizations := None; initial_parameters := Some four_starts;
     mle := None; max_log_like := None |}.

(** An estimator whose starting points have two columns, for the model of
    one parameter. *)
Definition too_wide : MLE Z unit :=
  {| inference_model := parabola; optimizer := lazy; data := None;
     n_optimizations := None;
     initial_parameters := Some (Array2 2 [[1; 2]; [3; 4]]);
     mle := None; max_log_like := None |}.

(** A model whose distribution has a [fit], which always returns seven,
    and an estimator that asks it for no trial. *)
Definition fitted : InferenceModel Z unit :=
  {| n_parameters := 1;
     evaluate_log_likelihood := fun _ _ => 0;
     fit := Some (fun _ _ => [7]) |}.

Definition no_trial : MLE Z unit :=
  {| inference_model := fitted; optimizer := lazy; data := None;
     n_optimizations := Some 0; initial_parameters := None;
     mle := None; max_log_like := None |}.

(** An estimator that holds a result of log likelihood ten. *)
Definition stale : MLE Z unit :=
  {| inference_model := parabola; optimizer := lazy; data := None;
     n_optimizations := None; initial_parameters := Some four_starts;
     mle := Some [8]; max_log_like := Some 10 |}.

(** *** A concrete estimation, with not-a-number *)

(** Floating point numbers as far as the estimator looks at them: the
    numbers, which integers stand for here, and not-a-number, of which no
    comparison holds and which every product gives back. *)
Inductive float : Type :=
| nan
| num (z : Z).

(** [a > b] *)
Definition float_gt (a b : float) : bool :=
  match a, b with
  | num y, num z => y >? z
  | _, _ => false
  end.

(** [a >= b] *)
Definition float_ge (a b : float) : bool :=
  match a, b with
  | num y, num z => y >=? z
  | _, _ => false
  end.

(** [(-1.0) * a] *)
Definition float_neg (a : float) : float :=
  match a with
  | num z => num (- z)
  | nan => nan
  end.

Definition is_number (a : float) : Prop := a <> nan.

(** The log likelihood [-(p - 3)^2] of a model of one parameter, which is
    not a number at [p = 0]. *)
Definition parabola_with_gap : InferenceModel float unit :=
  {| n_parameters := 1;
     evaluate_log_likelihood := fun p _ =>
       match p with
       | [num a] => if a =? 0 then nan else num (- ((a - 3) * (a - 3)))
       | _ => nan
       end;
     fit := None |}.

Definition lazy_float : Optimizer float :=
  {| optimize := fun f x0 => {| x := x0; fun_ := f x0 |} |}.

Definition no_guesses_float : Z -> exn + list (list float) := fun _ => inr [].

(** A new estimator for the model with the gap, with given starting
    points. *)
Definition fresh_float (starts : list Z) : MLE float unit :=
  {| inference_model := parabola_with_gap; optimizer := lazy_float;
     data := None; n_optimizations := None;
     initial_parameters := Some (Array2 1 (map (fun z => [num z]) starts));
     mle := None; max_log_like := None |}.

End Mle.

(** * Properties *)

Module LHS_Theory.
Import LHS.

Section Engine.
Context {V : Type} (zero : V) {C : Type} `{!Criterion (V := V) C}.

Abbreviation engine := (LatinHypercubeSampling V C).
Abbreviation kept := (LHS.kept zero).

Lemma run_unfold (n : Z) (self : engine) :
  run zero n self =
    if 0 <? n then
      match create_bins (criterion self) (samples self) with
      | (c1, inl e) => (sampled self n c1 (samplesU01 self), inl e)
      | (c1, inr _) =>
          match generate_samples c1 with
          | (c2, inl e) => (sampled self n c2 (samplesU01 self), inl e)
          | (c2, inr u) =>
              transform zero (dist_object self) u (sampled self n c2 u)
          end
      end
    else (self, inl BeartypeCallHintParamViolation).
Proof.
  unfold run, check_PositiveInteger, mbind, Method_bind, mret, Method_ret,
    raise, criterion_call, get, set_samples_number, set_samplesU01, sampled.
  destruct (0 <? n); [|reflexivity]. cbn.
  destruct (create_bins (criterion self) (samples self)) as [c1 [e|[]]];
    cbn; [reflexivity|].
  destruct (generate_samples c1) as [c2 [e|u]]; cbn; reflexivity.
Qed.

(** **** Arrays *)

Lemma length_broadcast_vector r (v w : list V) :
  broadcast_vector r v = Some w -> length w = r.
Proof.
  unfold broadcast_vector.
  destruct (Nat.eqb_spec (length v) r) as [E|E].
  - intros [= <-]. exact E.
  - destruct v as [|x [|y v]]; intros [=]. subst w. apply repeat_length.
Qed.

Lemma length_broadcast_to r (a : ndarray V) w :
  broadcast_to r a = Some w -> length w = r.
Proof.
  destruct a as [x|v|n c f]; cbn.
  - intros [= <-]. apply repeat_length.
  - apply length_broadcast_vector.
  - destruct n as [|[|n]]; try (intros [=]; fail).
    apply length_broadcast_vector.
Qed.

Lemma map_nth_seq (v : list V) :
  map (fun i => nth i v zero) (seq 0 (length v)) = v.
Proof.
  induction v as [|x v IH]; [reflexivity|].
  cbn. f_equal. rewrite <- seq_shift, map_map. exact IH.
Qed.

Lemma set_column_inv (s : option (ndarray V)) j x s' :
  set_column zero s j x = inr s' ->
  exists r c f v,
    s = Some (Arr2 r c f) /\ (j < c)%nat /\ broadcast_to r x = Some v /\
    s' = Arr2 r c (fun i k => if (k =? j)%nat then nth i v zero else f i k).
Proof.
  destruct s as [[y|w|r c f]|]; unfold set_column; try (intros [=]; fail).
  destruct (Nat.ltb_spec j c) as [L|L]; [|intros [=]].
  destruct (broadcast_to r x) as [v|] eqn:B; [|intros [=]].
  intros [= <-]. exists r, c, f, v. auto.
Qed.

Lemma kept_refl P s : kept P s s.
Proof. split; auto. Qed.

Lemma kept_trans (P Q : nat -> Prop) s1 s2 s3 :
  kept P s1 s2 -> kept Q s2 s3 -> kept (fun k => P k /\ Q k) s1 s3.
Proof.
  intros [S1 K1] [S2 K2]. split; [congruence|].
  intros i k [HP HQ]. rewrite K2, K1; auto.
Qed.

Lemma kept_weaken (P Q : nat -> Prop) s s' :
  (forall k, Q k -> P k) -> kept P s s' -> kept Q s s'.
Proof. intros I [S K]. split; auto. Qed.

Lemma kept_cells P s s' k : kept P s s' -> P k -> cells s' k = cells s k.
Proof.
  intros [S K] HP.
  destruct s as [[x|v|r c f]|], s' as [[x'|v'|r' c' f']|];
    cbn in S; try discriminate; try reflexivity.
  injection S as -> ->. cbn. apply map_ext. intros i.
  exact (K i k HP).
Qed.

Lemma set_column_kept s j x s' :
  set_column zero s j x = inr s' -> kept (fun k => k <> j) s (Some s').
Proof.
  intros (r & c & f & v & -> & _ & _ & ->)%set_column_inv.
  split; [reflexivity|]. intros i k Hk. cbn.
  destruct (Nat.eqb_spec k j); [contradiction|reflexivity].
Qed.

Lemma set_column_cells s j x s' :
  set_column zero s j x = inr s' ->
  exists r c f v, s' = Arr2 r c f /\ broadcast_to r x = Some v /\
                  column_cells s' j = v.
Proof.
  intros (r & c & f & v & -> & _ & B & ->)%set_column_inv.
  eexists r, c, _, v. split; [reflexivity|]. split; [exact B|].
  cbn. rewrite Nat.eqb_refl.
  rewrite <- (length_broadcast_to _ _ _ B). apply map_nth_seq.
Qed.

(** **** The transform of one column and of all columns *)

Lemma transform_column_unfold f u j (self : engine) :
  transform_column zero f u j self =
    match column u j with
    | inl e => (self, inl e)
    | inr u_j =>
        match f u_j with
        | inl e => (self, inl e)
        | inr x_j =>
            match set_column zero (samples self) j x_j with
            | inl e => (self, inl e)
            | inr s' => (with_samples self (Some s'), inr tt)
            end
        end
    end.
Proof.
  unfold transform_column, mbind, Method_bind, call, get, set_samples,
    with_samples.
  destruct (column u j) as [e|u_j]; [reflexivity|].
  destruct (f u_j) as [e|x_j]; [reflexivity|].
  destruct (set_column zero (samples self) j x_j); reflexivity.
Qed.

Lemma same_but_samples_refl (self : engine) : same_but_samples self self.
Proof. repeat split. Qed.

Lemma same_but_samples_trans (s1 s2 s3 : engine) :
  same_but_samples s1 s2 -> same_but_samples s2 s3 -> same_but_samples s1 s3.
Proof.
  intros (A1 & B1 & C1 & D1) (A2 & B2 & C2 & D2).
  repeat split; congruence.
Qed.

Lemma transform_column_frame f u j (self self' : engine) res :
  transform_column zero f u j self = (self', res) ->
  same_but_samples self self' /\
  kept (fun k => k <> j) (samples self) (samples self').
Proof.
  rewrite transform_column_unfold.
  destruct (column u j) as [e|u_j];
    [intros [= <- <-]; split; [apply same_but_samples_refl|apply kept_refl]|].
  destruct (f u_j) as [e|x_j];
    [intros [= <- <-]; split; [apply same_but_samples_refl|apply kept_refl]|].
  destruct (set_column zero (samples self) j x_j) as [e|s'] eqn:S;
    intros [= <- <-]; (split; [repeat split|]).
  - apply kept_refl.
  - cbn. eapply set_column_kept; eauto.
Qed.

Lemma transform_list_frame ds u : forall j (self self' : engine) res,
  transform_list zero ds u j self = (self', res) ->
  same_but_samples self self' /\
  kept (fun k => (k < j)%nat) (samples self) (samples self').
Proof.
  induction ds as [|d ds IH]; intros j self self' res; cbn.
  - intros [= <- <-]. split; [apply same_but_samples_refl|apply kept_refl].
  - unfold mbind, Method_bind.
    destruct (icdf d) as [f|].
    + destruct (transform_column zero f u j self) as [self1 [e|[]]] eqn:T;
        apply transform_column_frame in T as [F1 K1].
      * intros [= <- <-]. split; [exact F1|].
        eapply kept_weaken; [|exact K1]. cbn. lia.
      * intros [F2 K2]%IH. split; [eapply same_but_samples_trans; eauto|].
        eapply kept_weaken; [|eapply kept_trans; [exact K1|exact K2]].
        cbn. lia.
    + cbn. intros [F2 K2]%IH. split; [exact F2|].
      eapply kept_weaken; [|exact K2]. cbn. lia.
Qed.

Lemma kept_matrix P r c f (s' : option (ndarray V)) :
  kept P (Some (Arr2 r c f)) s' -> exists g, s' = Some (Arr2 r c g).
Proof.
  intros [S _]. destruct s' as [[x|v|r' c' g]|]; cbn in S;
    try (discriminate S).
  injection S as -> ->. eauto.
Qed.

Lemma transform_list_ok ds u : forall j (self self' : engine),
  transform_list zero ds u j self = (self', inr tt) ->
  forall k d, ds !! k = Some d ->
    transformed u (samples self) (samples self') (j + k) d.
Proof.
  induction ds as [|d0 ds IH]; intros j self self'; cbn; [intros _ k d [=]|].
  unfold mbind, Method_bind.
  destruct (match icdf d0 with
            | Some f => transform_column zero f u j
            | None => mret tt
            end self) as [self1 [e|[]]] eqn:Head; [intros [=]|].
  intros Rest k d Hk.
  pose proof (transform_list_frame _ _ _ _ _ _ Rest) as [_ KR].
  destruct k as [|k]; cbn in Hk.
  - injection Hk as ->. rewrite Nat.add_0_r. unfold transformed.
    destruct (icdf d) as [f|].
    + rewrite transform_column_unfold in Head.
      destruct (column u j) as [e|u_j]; [discriminate Head|].
      destruct (f u_j) as [e|x_j] eqn:F; [discriminate Head|].
      destruct (set_column zero (samples self) j x_j) as [e|s1] eqn:S;
        [discriminate Head|].
      injection Head as <-. cbn in KR.
      destruct (set_column_cells _ _ _ _ S) as (r & c & g1 & v & -> & B & Cv).
      destruct (kept_matrix _ _ _ _ _ KR) as [g Eg].
      exists u_j, x_j, r, c, g. repeat split; auto.
      rewrite (kept_cells _ _ _ j KR) by lia. cbn. cbn in Cv.
      rewrite Cv. exact B.
    + injection Head as <-. apply (kept_cells _ _ _ j KR). lia.
  - replace (j + S k)%nat with (S j + k)%nat by lia.
    specialize (IH _ _ _ Rest k d Hk). unfold transformed in *.
    destruct (icdf d) as [f|]; [exact IH|].
    rewrite IH.
    destruct (icdf d0) as [f0|].
    + apply transform_column_frame in Head as [_ KH].
      apply (kept_cells _ _ _ _ KH). lia.
    + injection Head as <-. reflexivity.
Qed.

Lemma transform_marginals_list ms u : forall j (self : engine),
  forallb hasattr_icdf ms = true ->
  transform_marginals zero ms u j self = transform_list zero ms u j self.
Proof.
  induction ms as [|m ms IH]; intros j self; cbn; [reflexivity|].
  unfold hasattr_icdf at 1. destruct (icdf m) as [f|]; [|discriminate].
  cbn. intros A. unfold mbind, Method_bind.
  destruct (transform_column zero f u j self) as [self1 [e|[]]];
    [reflexivity|]. apply IH, A.
Qed.

(** **** The whole of [run] *)

Lemma run_ok (n : Z) (self self' : engine) :
  run zero n self = (self', inr tt) ->
  0 < n /\
  exists c1 c2 u,
    create_bins (criterion self) (samples self) = (c1, inr tt) /\
    generate_samples c1 = (c2, inr u) /\
    transform zero (dist_object self) u (sampled self n c2 u)
      = (self', inr tt).
Proof.
  rewrite run_unfold. destruct (Z.ltb_spec 0 n) as [L|L]; [|intros [=]].
  destruct (create_bins (criterion self) (samples self))
    as [c1 [e|[]]] eqn:B; [intros [=]|].
  destruct (generate_samples c1) as [c2 [e|u]] eqn:G; [intros [=]|].
  intros T. split; [exact L|]. exists c1, c2, u. auto.
Qed.

Lemma transform_frame d u (self self' : engine) res :
  transform zero d u self = (self', res) ->
  same_but_samples self self' /\
  ((exists e, res = inl e) \/ (forall x, d <> PyContinuous1D x) ->
   option_map shape (samples self') = option_map shape (samples self)).
Proof.
  destruct d as [ds|d|ms| |]; cbn.
  - intros [F [S _]]%transform_list_frame. auto.
  - destruct (icdf d) as [f|].
    + unfold mbind, Method_bind, call, set_samples.
      destruct (f u) as [e|x]; intros [= <- <-].
      * split; [apply same_but_samples_refl|reflexivity].
      * split; [repeat split|]. intros [[e [=]]|N]. now destruct (N d).
    + intros [= <- <-]. split; [apply same_but_samples_refl|reflexivity].
  - destruct (forallb hasattr_icdf ms) eqn:A.
    + rewrite transform_marginals_list by exact A.
      intros [F [S _]]%transform_list_frame. auto.
    + intros [= <- <-]. split; [apply same_but_samples_refl|reflexivity].
  - intros [= <- <-]. split; [apply same_but_samples_refl|reflexivity].
  - intros [= <- <-]. split; [apply same_but_samples_refl|reflexivity].
Qed.

Lemma run_ok_samplesU01 (n : Z) (self self' : engine) c1 c2 u :
  create_bins (criterion self) (samples self) = (c1, inr tt) ->
  generate_samples c1 = (c2, inr u) ->
  transform zero (dist_object self) u (sampled self n c2 u)
    = (self', inr tt) ->
  samplesU01 self' = u /\ samples_number self' = n /\
  dist_object self' = dist_object self.
Proof.
  intros _ _ [(D & _ & N & U) _]%transform_frame. cbn in *. auto.
Qed.

(** On a list or a joint aggregate, [run] never changes the shape of
    [samples], whatever count it is given. *)
Lemma run_samples_shape (n : Z) (self self' : engine) res :
  (forall x, dist_object self <> PyContinuous1D x) ->
  run zero n self = (self', res) ->
  option_map shape (samples self') = option_map shape (samples self).
Proof.
  intros N. rewrite run_unfold. destruct (0 <? n); [|intros [= <- <-]; auto].
  destruct (create_bins (criterion self) (samples self)) as [c1 [e|[]]];
    [intros [= <- <-]; reflexivity|].
  destruct (generate_samples c1) as [c2 [e|u]];
    [intros [= <- <-]; reflexivity|].
  intros [_ S]%transform_frame. apply S. right. exact N.
Qed.

Lemma check_distributions_list draw (l : list (Distribution V)) :
  forallb isinstance_Distribution l = true ->
  check_distributions draw (PyList l) = true.
Proof.
  intros A. cbn. destruct (l !! (draw mod length l)%nat) as [x|] eqn:E;
    [|reflexivity].
  rewrite forallb_forall in A. apply A, list_elem_of_In.
  eapply list_elem_of_lookup_2, E.
Qed.

Lemma init_unfold draw (d : py_distributions V) (n : Z) (c : C) :
  check_distributions draw d = true -> 0 < n ->
  __init__ zero draw d n c =
    match run zero n (allocate zero d n c) with
    | (self, inr _) => inr self
    | (_, inl e) => inl e
    end.
Proof.
  intros D L. unfold __init__. rewrite D.
  destruct (Z.ltb_spec 0 n); [reflexivity|lia].
Qed.

Lemma init_ok draw (d : py_distributions V) (n : Z) (c : C) (self : engine) :
  __init__ zero draw d n c = inr self ->
  run zero n (allocate zero d n c) = (self, inr tt).
Proof.
  unfold __init__.
  destruct (negb (check_distributions draw d) || negb (0 <? n));
    [intros [=]|].
  destruct (run zero n (allocate zero d n c)) as [self1 [e|[]]];
    intros [= <-]. reflexivity.
Qed.

Lemma cells_zeros n dim j :
  cells (Some (zeros zero n dim)) j = repeat zero n.
Proof.
  cbn. generalize 0%nat. induction n as [|n IH]; intros a; cbn;
    [reflexivity|]. f_equal. apply IH.
Qed.

(** What a successful [run] has done to the columns, by the kind of
    [distributions]. *)
Lemma run_columns (n : Z) (self self' : engine) :
  run zero n self = (self', inr tt) ->
  match dist_object self with
  | PyList ds =>
      forall j d, ds !! j = Some d ->
        transformed (samplesU01 self') (samples self) (samples self') j d
  | PyJointIndependent ms =>
      if forallb hasattr_icdf ms then
        forall j d, ms !! j = Some d ->
          transformed (samplesU01 self') (samples self) (samples self') j d
      else samples self' = samples self
  | _ => True
  end.
Proof.
  intros R. destruct (run_ok _ _ _ R) as (_ & c1 & c2 & u & B & G & T).
  destruct (run_ok_samplesU01 _ _ _ _ _ _ B G T) as (-> & _ & _).
  destruct (dist_object self) as [ds|d|ms| |]; cbn in T; auto.
  - intros j d Hj. exact (transform_list_ok _ _ _ _ _ T j d Hj).
  - destruct (forallb hasattr_icdf ms) eqn:A.
    + rewrite transform_marginals_list in T by exact A.
      intros j d Hj. exact (transform_list_ok _ _ _ _ _ T j d Hj).
    + injection T as <-. reflexivity.
Qed.

(** **** The claims on the engine *)

(** C2, as the code has it.  After a successful [run] on a list of
    distributions, every column [j] whose marginal has [icdf] holds
    [icdf(samplesU01[:, j])] and every column whose marginal lacks it is
    as it was, which is zero since construction; a column looks at its own
    marginal only.  On an independent-joint aggregate the columns are
    transformed in this way only if every marginal has [icdf]; if one
    lacks it, [samples] is left as it was as a whole.  A marginal
    without [icdf] raises nothing in either case: the list loop passes it
    over, and the joint branch then does nothing at all. *)
Theorem run_transform_by_design (n : Z) (self self' : engine) :
  run zero n self = (self', inr tt) ->
  match dist_object self with
  | PyList ds =>
      forall j d, ds !! j = Some d ->
        transformed (samplesU01 self') (samples self) (samples self') j d
  | PyJointIndependent ms =>
      if forallb hasattr_icdf ms then
        forall j d, ms !! j = Some d ->
          transformed (samplesU01 self') (samples self) (samples self') j d
      else samples self' = samples self
  | _ => True
  end /\
  (forall d ds u j (e : engine), icdf d = None ->
     transform_list zero (d :: ds) u j e = transform_list zero ds u (S j) e) /\
  (forall ms u (e : engine), forallb hasattr_icdf ms = false ->
     transform zero (PyJointIndependent ms) u e = (e, inr tt)) /\
  (forall draw ds m c (e : engine) j d,
     __init__ zero draw (PyList ds) m c = inr e ->
     ds !! j = Some d -> icdf d = None ->
     cells (samples e) j = repeat zero (Z.to_nat m)).
Proof.
  intros R. split; [|split; [|split]].
  - apply (run_columns n), R.
  - intros d ds u j e A. cbn. rewrite A. reflexivity.
  - intros ms u e A. cbn. rewrite A. reflexivity.
  - intros draw ds m c e j d I Hj Hd. apply init_ok in I.
    destruct (run_ok _ _ _ I) as (_ & c1 & c2 & u & B & G & T).
    cbn in T. pose proof (transform_list_ok _ _ _ _ _ T j d Hj) as X.
    unfold transformed in X. rewrite Hd in X. cbn in X. rewrite X.
    apply (cells_zeros (Z.to_nat m) (length ds) j).
Qed.

(** C3, as the code has it.  A [run] that raises restores nothing.  It
    leaves the engine untouched only when the count fails its type
    check.  Otherwise [samples_number] is the new count already;
    [samples] and [samplesU01] are as before if it was the criterion that
    raised, and if a marginal raised then [samplesU01] is the new design
    already and [samples] has its old shape (with the columns done so far
    overwritten). *)
Theorem run_raise_state (n : Z) (self self' : engine) (e : exn) :
  run zero n self = (self', inl e) ->
  (n <= 0 -> self' = self) /\
  (0 < n ->
     samples_number self' = n /\
     dist_object self' = dist_object self /\
     option_map shape (samples self') = option_map shape (samples self) /\
     (forall c1 e1,
        create_bins (criterion self) (samples self) = (c1, inl e1) ->
        samples self' = samples self /\ samplesU01 self' = samplesU01 self)
     /\
     (forall c1 c2 e2,
        create_bins (criterion self) (samples self) = (c1, inr tt) ->
        generate_samples c1 = (c2, inl e2) ->
        samples self' = samples self /\ samplesU01 self' = samplesU01 self)
     /\
     (forall c1 c2 u,
        create_bins (criterion self) (samples self) = (c1, inr tt) ->
        generate_samples c1 = (c2, inr u) ->
        samplesU01 self' = u)).
Proof.
  rewrite run_unfold. destruct (Z.ltb_spec 0 n) as [L|L].
  - intros R. split; [lia|]. intros _.
    destruct (create_bins (criterion self) (samples self))
      as [c1 [e1|[]]] eqn:B.
    { injection R as <- _. cbn. repeat split; intros; congruence. }
    destruct (generate_samples c1) as [c2 [e2|u]] eqn:G.
    { injection R as <- _. cbn. repeat split; intros; congruence. }
    apply transform_frame in R as [(D & _ & N & U) S]. cbn in *.
    split; [exact N|]. split; [exact D|].
    split; [apply S; eauto|].
    repeat split; intros; congruence.
  - intros [= <- _]. split; [reflexivity|lia].
Qed.


(** C5, as the code has it.  The constructor resolves the number of
    columns as the length of the list, one for a single
    [DistributionContinuous1D] and the number of marginals of a joint
    aggregate, and allocates [samples] and [samplesU01] as zero matrices of
    [samples_number] rows and that many columns.  For a single
    distribution of any other class it allocates no matrix: [samples] is
    [None] and [samplesU01] a zero array without axes.  In every case it
    then calls [run] with [samples_number], whose outcome is its own. *)
Theorem init_allocates_then_runs (draw : nat) (d : py_distributions V)
    (n : Z) (c : C) :
  check_distributions draw d = true -> 0 < n ->
  let self0 := allocate zero d n c in
  let allocated dim :=
    samples self0 = Some (zeros zero (Z.to_nat n) dim) /\
    samplesU01 self0 = zeros zero (Z.to_nat n) dim /\
    shape (samplesU01 self0) = [Z.to_nat n; dim] /\
    forall i j, cell zero (samples self0) i j = zero /\
                item zero (samplesU01 self0) i j = zero in
  match d with
  | PyList ds => allocated (length ds)
  | PyContinuous1D _ => allocated 1%nat
  | PyJointIndependent ms => allocated (length ms)
  | _ => samples self0 = None /\ samplesU01 self0 = Arr0 zero /\
         shape (samplesU01 self0) = []
  end /\
  samples_number self0 = n /\ dist_object self0 = d /\
  criterion self0 = c /\
  __init__ zero draw d n c =
    match run zero n self0 with
    | (self, inr _) => inr self
    | (_, inl e) => inl e
    end.
Proof.
  intros D L. cbn zeta. split.
  - destruct d; cbn; auto.
  - repeat split. apply (init_unfold draw); assumption.
Qed.



End Engine.

(** **** The engine on concrete designs *)

Lemma constructed_init {C : Type} `{!Criterion (V := Q) C}
    (d : py_distributions Q) (n : Z) (c : C) :
  snd (run 0%Q n (allocate 0%Q d n c)) = inr tt ->
  forall draw, check_distributions draw d = true -> 0 < n ->
  __init__ 0%Q draw d n c = inr (constructed d n c).
Proof.
  intros R draw D L. rewrite (init_unfold 0%Q draw) by assumption.
  unfold constructed.
  destruct (run 0%Q n (allocate 0%Q d n c)) as [self [e|[]]];
    [discriminate R|reflexivity].
Qed.

Lemma Centered_conforming : conforming (V := Q) (C := Centered).
Proof.
  intros c c1 c2 s u B G. cbn in B, G.
  destruct s as [x|v|[|n] d f]; cbn in B; try discriminate B.
  injection B as <-. cbn in G. injection G as _ <-. reflexivity.
Qed.


(** C1, on the code.  An engine built for two samples and then run for
    three: [run] returns, [samples_number] is three, and both matrices
    still have two rows. *)
Theorem run_keeps_construction_shape :
  let e := constructed (PyList [uniform04; uniform04]) 2 centered in
  let e' := fst (run 0%Q 3 e) in
  (forall draw,
     __init__ 0%Q draw (PyList [uniform04; uniform04]) 2 centered = inr e) /\
  run 0%Q 3 e = (e', inr tt) /\
  samples_number e' = 3 /\
  option_map shape (samples e') = Some [2; 2]%nat /\
  shape (samplesU01 e') = [2; 2]%nat /\
  option_rows (samples e') = Some [[12 # 4; 12 # 4]; [4 # 4; 4 # 4]]%Q.
Proof.
  cbn zeta. split; [intros draw; apply constructed_init;
                    [reflexivity
                    |apply check_distributions_list; reflexivity|lia]|].
  split; [|repeat split; vm_compute; reflexivity].
  apply injective_projections; [reflexivity|vm_compute; reflexivity].
Qed.

(** C2 fails on a joint aggregate of a marginal with [icdf] and one
    without: column 0 has a marginal with [icdf], whose image of
    [samplesU01[:, 0]] is [1, 3], and [samples[:, 0]] is left at zero. *)
Lemma joint_aggregate_column_not_transformed :
  let ms := [uniform04; no_icdf] in
  let e := constructed (PyJointIndependent ms) 2 centered in
  (forall draw,
     __init__ 0%Q draw (PyJointIndependent ms) 2 centered = inr e) /\
  exists f u_0,
    icdf uniform04 = Some f /\
    column (samplesU01 e) 0 = inr u_0 /\
    f u_0 = inr (Arr1 [4 # 4; 12 # 4]%Q) /\
    cells (samples e) 0 = [0; 0]%Q /\
    f u_0 <> inr (Arr1 (cells (samples e) 0)).
Proof.
  cbn zeta. split; [intros draw; apply constructed_init;
                    [reflexivity|reflexivity|lia]|].
  eexists _, _. split; [reflexivity|]. split; [reflexivity|].
  split; [reflexivity|]. split; [reflexivity|]. vm_compute. discriminate.
Qed.

(** The statement holds of a list of a marginal with [icdf] and one
    without. *)
Lemma run_transform_by_design_witness :
  let self := allocate 0%Q (PyList [uniform04; no_icdf]) 2 centered in
  let self' := fst (run 0%Q 2 self) in
  run 0%Q 2 self = (self', inr tt) /\
  transformed (samplesU01 self') (samples self) (samples self') 0 uniform04 /\
  transformed (samplesU01 self') (samples self) (samples self') 1 no_icdf.
Proof.
  cbn zeta.
  assert (R : run 0%Q 2 (allocate 0%Q (PyList [uniform04; no_icdf]) 2 centered)
              = (fst (run 0%Q 2 (allocate 0%Q (PyList [uniform04; no_icdf])
                                   2 centered)), inr tt)) by reflexivity.
  split; [exact R|].
  pose proof (run_transform_by_design 0%Q 2 _ _ R) as [T _]. cbn in T.
  split; [exact (T 0%nat uniform04 eq_refl)|exact (T 1%nat no_icdf eq_refl)].
Defined.

(** C3 fails on an engine built for a marginal with [icdf] and one whose
    [icdf] raises on the second design: [run(3)] raises, and leaves
    behind the new count, the new [samplesU01] and a [samples] whose first
    column is already the new one. *)
Lemma run_raises_after_mutation :
  let ds := [uniform04; lower_half] in
  let e := constructed (PyList ds) 2 centered in
  let e' := fst (run 0%Q 3 e) in
  (forall draw, __init__ 0%Q draw (PyList ds) 2 centered = inr e) /\
  run 0%Q 3 e = (e', inl (ValueError "domain")) /\
  samples_number e = 2 /\ samples_number e' = 3 /\
  option_rows (samples e) = Some [[4 # 4; 1 # 4]; [12 # 4; 3 # 4]]%Q /\
  option_rows (samples e') = Some [[12 # 4; 1 # 4]; [4 # 4; 3 # 4]]%Q /\
  rows (samplesU01 e) = [[1 # 4; 1 # 4]; [3 # 4; 3 # 4]]%Q /\
  rows (samplesU01 e') = [[3 # 4; 3 # 4]; [1 # 4; 1 # 4]]%Q.
Proof.
  cbn zeta. split; [intros draw; apply constructed_init;
                    [reflexivity
                    |apply check_distributions_list; reflexivity|lia]|].
  split; [|repeat split; vm_compute; reflexivity].
  apply injective_projections; [reflexivity|vm_compute; reflexivity].
Qed.

(** The statement holds of the failing [run(3)]. *)
Lemma run_raise_state_witness :
  let e := constructed (PyList [uniform04; lower_half]) 2 centered in
  let e' := fst (run 0%Q 3 e) in
  run 0%Q 3 e = (e', inl (ValueError "domain")) /\
  samples_number e' = 3 /\
  option_map shape (samples e') = option_map shape (samples e).
Proof.
  cbn zeta.
  assert (R : run 0%Q 3 (constructed (PyList [uniform04; lower_half]) 2 centered)
              = (fst (run 0%Q 3 (constructed (PyList [uniform04; lower_half])
                                   2 centered)), inl (ValueError "domain")))
    by reflexivity.
  split; [exact R|].
  destruct (run_raise_state 0%Q 3 _ _ _ R) as [_ X].
  destruct (X ltac:(lia)) as (N & _ & S & _). split; [exact N|exact S].
Defined.



(** C5 fails on a single distribution of one variable that is not
    continuous.  The claim gives it one column, two zero matrices of shape
    [(2, 1)]; the constructor allocates no matrix for it: [samples] is
    [None] and [samplesU01] has no axes.  On the Centered criterion, which
    cannot read the shape of [None], the constructor then raises. *)
Lemma init_discrete_not_allocated :
  let self0 := allocate 0%Q poisson 2 centered in
  (forall draw, check_distributions draw poisson = true) /\
  samples self0 = None /\
  samples self0 <> Some (zeros 0%Q 2 1) /\
  shape (samplesU01 self0) = [] /\
  shape (samplesU01 self0) <> [2; 1]%nat /\
  forall draw, __init__ 0%Q draw poisson 2 centered = inl AttributeError.
Proof.
  cbn zeta. split; [reflexivity|]. split; [reflexivity|].
  split; [discriminate|]. split; [reflexivity|]. split; [discriminate|].
  reflexivity.
Qed.

(** The statement holds of a joint aggregate of two marginals and three
    samples, whatever the type check draws. *)
Lemma init_allocates_then_runs_witness :
  let d := PyJointIndependent [uniform04; no_icdf] in
  check_distributions 0 d = true /\ 0 < 3 /\
  samples (allocate 0%Q d 3 centered) = Some (zeros 0%Q 3 2) /\
  __init__ 0%Q 0 d 3 centered =
    match run 0%Q 3 (allocate 0%Q d 3 centered) with
    | (self, inr _) => inr self
    | (_, inl e) => inl e
    end.
Proof.
  cbn zeta. split; [reflexivity|]. split; [lia|].
  destruct (init_allocates_then_runs 0%Q 0
              (PyJointIndependent [uniform04; no_icdf]) 3 centered
              eq_refl ltac:(lia)) as ((A & _) & _ & _ & _ & I).
  split; [exact A|exact I].
Defined.



(** **** More on the engine: the other branches, and failures *)

Section Branches.
Context {V : Type} (zero : V) {C : Type} `{!Criterion (V := V) C}.

Abbreviation engine := (LatinHypercubeSampling V C).
Abbreviation kept := (LHS.kept zero).

(** A single continuous distribution.  A successful [run] binds [samples]
    to what [icdf] makes of the whole of [samplesU01], of whatever shape
    that is; if the distribution has no [icdf], [samples] is not
    touched. *)
Theorem run_single_distribution (n : Z) (self self' : engine) d :
  dist_object self = PyContinuous1D d ->
  run zero n self = (self', inr tt) ->
  match icdf d with
  | Some f => exists x, f (samplesU01 self') = inr x /\ samples self' = Some x
  | None => samples self' = samples self
  end.
Proof.
  intros D R. destruct (run_ok zero _ _ _ R) as (_ & c1 & c2 & u & B & G & T).
  destruct (run_ok_samplesU01 zero _ _ _ _ _ _ B G T) as (-> & _ & _).
  rewrite D in T. cbn in T. destruct (icdf d) as [f|].
  - unfold mbind, Method_bind, call, set_samples in T.
    destruct (f u) as [e|x]; [discriminate T|].
    injection T as <-. exists x. split; reflexivity.
  - injection T as <-. reflexivity.
Qed.

(** The loop of the list branch, when it raises: it was the transform of
    some column [j + k] that raised; the columns from there on are
    untouched and the columns before are done. *)
Lemma transform_list_raise ds u : forall j (self self' : engine) e,
  transform_list zero ds u j self = (self', inl e) ->
  exists k d f,
    ds !! k = Some d /\ icdf d = Some f /\
    transform_column zero f u (j + k) self' = (self', inl e) /\
    kept (fun c => (j + k <= c)%nat) (samples self) (samples self') /\
    forall k' d', (k' < k)%nat -> ds !! k' = Some d' ->
      transformed u (samples self) (samples self') (j + k') d'.
Proof.
  induction ds as [|d0 ds IH]; intros j self self' e; cbn;
    [intros [=]|].
  unfold mbind, Method_bind.
  destruct (match icdf d0 with
            | Some f => transform_column zero f u j
            | None => mret tt
            end self) as [self1 [e1|[]]] eqn:Head.
  - intros [= <- <-]. destruct (icdf d0) as [f|] eqn:F; [|discriminate Head].
    exists 0%nat, d0, f. rewrite Nat.add_0_r.
    assert (self1 = self) as ->.
    { rewrite transform_column_unfold in Head.
      destruct (column u j); [congruence|].
      destruct (f n); [congruence|].
      destruct (set_column zero (samples self) j n0); congruence. }
    split; [reflexivity|]. split; [exact F|]. split; [exact Head|].
    split; [apply kept_refl|]. intros k' d' L. lia.
  - intros Rest. pose proof (transform_list_frame _ _ _ _ _ _ _ Rest) as [_ KR].
    destruct (IH _ _ _ _ Rest) as (k & d & f & Hk & F & Tc & K & Pre).
    assert (KH : kept (fun c => c <> j) (samples self) (samples self1)).
    { destruct (icdf d0) as [f0|].
      - apply transform_column_frame in Head as [_ KH]. exact KH.
      - injection Head as <-. apply kept_refl. }
    exists (S k), d, f. replace (j + S k)%nat with (S j + k)%nat by lia.
    split; [exact Hk|]. split; [exact F|]. split; [exact Tc|]. split.
    + eapply kept_weaken; [|eapply kept_trans; [exact KH|exact K]].
      cbn. lia.
    + intros k' d' L Hk'. destruct k' as [|k']; cbn in Hk'.
      * injection Hk' as ->. rewrite Nat.add_0_r. unfold transformed.
        destruct (icdf d') as [f0|].
        -- rewrite transform_column_unfold in Head.
           destruct (column u j) as [e0|u_j]; [discriminate Head|].
           destruct (f0 u_j) as [e0|x_j] eqn:F0; [discriminate Head|].
           destruct (set_column zero (samples self) j x_j) as [e0|s1] eqn:S;
             [discriminate Head|].
           injection Head as <-. cbn in KR.
           destruct (set_column_cells _ _ _ _ _ S)
             as (r & c & g1 & v & -> & B & Cv).
           destruct (kept_matrix _ _ _ _ _ _ KR) as [g Eg].
           exists u_j, x_j, r, c, g. repeat split; auto.
           rewrite (kept_cells _ _ _ _ j KR) by lia. cbn. cbn in Cv.
           rewrite Cv. exact B.
        -- injection Head as <-. apply (kept_cells _ _ _ _ j KR). lia.
      * replace (j + S k')%nat with (S j + k')%nat by lia.
        assert (X := Pre k' d' ltac:(lia) Hk'). unfold transformed in *.
        destruct (icdf d') as [f0|]; [exact X|].
        rewrite X. apply (kept_cells _ _ _ _ _ KH). lia.
Qed.

(** A list of distributions, when the transform raises.  The exception is
    that of some column [k] whose marginal has [icdf] (its slice, its
    [icdf] or its assignment); the columns before [k] are transformed
    already, the columns from [k] on are as they were, and [samplesU01] is
    the new design. *)
Theorem run_list_failure (n : Z) (self self' : engine) ds c1 c2 u e :
  dist_object self = PyList ds ->
  create_bins (criterion self) (samples self) = (c1, inr tt) ->
  generate_samples c1 = (c2, inr u) ->
  run zero n self = (self', inl e) ->
  0 < n ->
  samplesU01 self' = u /\
  exists k d f,
    ds !! k = Some d /\ icdf d = Some f /\
    transform_column zero f u k self' = (self', inl e) /\
    kept (fun c => (k <= c)%nat) (samples self) (samples self') /\
    forall k' d', (k' < k)%nat -> ds !! k' = Some d' ->
      transformed u (samples self) (samples self') k' d'.
Proof.
  intros D B G R L. rewrite run_unfold in R.
  destruct (Z.ltb_spec 0 n); [|lia]. rewrite B, G, D in R. cbn in R.
  pose proof (transform_list_frame _ _ _ _ _ _ _ R) as [(_ & _ & _ & U) _].
  split; [exact U|].
  exact (transform_list_raise _ _ _ _ _ _ R).
Qed.

(** The shape invariant at construction.  With a criterion that keeps to
    its contract, an engine that the constructor returns for a list or a
    joint aggregate of [dim] distributions has [samples_number] as given
    and two matrices of shape [(samples_number, dim)]. *)
Theorem init_shape (d : py_distributions V) (n : Z) (c : C)
    (self : engine) ds :
  conforming ->
  d = PyList ds \/ d = PyJointIndependent ds ->
  forall draw, __init__ zero draw d n c = inr self ->
  0 < n /\ samples_number self = n /\ dist_object self = d /\
  option_map shape (samples self) = Some [Z.to_nat n; length ds] /\
  shape (samplesU01 self) = [Z.to_nat n; length ds].
Proof.
  intros Conf D draw I. apply init_ok in I.
  assert (N : forall x, dist_object (allocate zero d n c) <> PyContinuous1D x)
    by (destruct D as [-> | ->]; discriminate).
  pose proof (run_samples_shape _ _ _ _ _ N I) as Sh.
  destruct (run_ok _ _ _ _ I) as (L & c1 & c2 & u & B & G & T).
  destruct (run_ok_samplesU01 _ _ _ _ _ _ _ B G T) as (U & Sn & Do).
  assert (A : samples (allocate zero d n c)
              = Some (zeros zero (Z.to_nat n) (length ds)))
    by (destruct D as [-> | ->]; reflexivity).
  rewrite A in B, Sh. pose proof (Conf _ _ _ _ _ B G) as Su.
  split; [exact L|]. split; [exact Sn|]. split; [exact Do|].
  split; [exact Sh|]. rewrite U. exact Su.
Qed.

(** A distribution of a class that the engine has no branch for (a
    discrete one, or a joint with a copula) passes the type check, but
    no matrix is allocated for it: the criterion is handed [None] in place
    of a matrix, and if it makes a design all the same, the constructor
    returns an engine whose [samples] is [None]. *)
Theorem init_other_distribution (n : Z) (c : C) :
  0 < n ->
  forall draw,
  __init__ zero draw PyOtherDistribution n c =
    match create_bins c None with
    | (c1, inl e) => inl e
    | (c1, inr _) =>
        match generate_samples c1 with
        | (c2, inl e) => inl e
        | (c2, inr u) =>
            inr {| dist_object := PyOtherDistribution; criterion := c2;
                   samples_number := n; samples := None; samplesU01 := u |}
        end
    end.
Proof.
  intros L draw. rewrite init_unfold by (reflexivity || exact L).
  rewrite run_unfold. destruct (Z.ltb_spec 0 n); [|lia]. cbn.
  destruct (create_bins c None) as [c1 [e|[]]]; [reflexivity|].
  destruct (generate_samples c1) as [c2 [e|u]]; reflexivity.
Qed.

(** The loop of the list branch does not look at [dist_object]. *)
Lemma transform_list_with_dist_object ds u d' : forall j (self : engine),
  transform_list zero ds u j (with_dist_object self d') =
    (with_dist_object (fst (transform_list zero ds u j self)) d',
     snd (transform_list zero ds u j self)).
Proof.
  induction ds as [|d ds IH]; intros j self; cbn; [reflexivity|].
  unfold mbind, Method_bind. destruct (icdf d) as [f|].
  - rewrite !transform_column_unfold. cbn [samples with_dist_object].
    destruct (column u j) as [e|u_j]; [reflexivity|].
    destruct (f u_j) as [e|x_j]; [reflexivity|].
    destruct (set_column zero (samples self) j x_j) as [e|s']; [reflexivity|].
    exact (IH (S j) (with_samples self (Some s'))).
  - cbn. apply IH.
Qed.

(** A joint aggregate all of whose marginals have [icdf] is sampled as
    the list of its marginals: [run] raises or returns alike on the two
    engines, and leaves the same [samples], [samplesU01], [samples_number]
    and criterion. *)
Theorem run_joint_as_list (n : Z) (self : engine) ms :
  dist_object self = PyJointIndependent ms ->
  forallb hasattr_icdf ms = true ->
  run zero n (with_dist_object self (PyList ms)) =
    (with_dist_object (fst (run zero n self)) (PyList ms),
     snd (run zero n self)).
Proof.
  intros D A. rewrite !run_unfold. cbn [criterion samples with_dist_object
                                         dist_object samplesU01].
  rewrite D. destruct (0 <? n); [|reflexivity].
  destruct (create_bins (criterion self) (samples self)) as [c1 [e|[]]];
    [reflexivity|].
  destruct (generate_samples c1) as [c2 [e|u]]; [reflexivity|].
  cbn [transform]. rewrite A, transform_marginals_list by exact A.
  exact (transform_list_with_dist_object ms u (PyList ms) 0
           (sampled self n c2 u)).
Qed.

End Branches.

(** A single distribution on the Centered criterion. *)
Lemma run_single_distribution_witness :
  let self := allocate 0%Q (PyContinuous1D uniform04) 2 centered in
  let self' := fst (run 0%Q 2 self) in
  run 0%Q 2 self = (self', inr tt) /\
  option_rows (samples self') = Some [[4 # 4]; [12 # 4]]%Q.
Proof.
  cbn zeta.
  assert (R : run 0%Q 2 (allocate 0%Q (PyContinuous1D uniform04) 2 centered)
              = (fst (run 0%Q 2 (allocate 0%Q (PyContinuous1D uniform04)
                                   2 centered)), inr tt)) by reflexivity.
  split; [exact R|].
  assert (D : dist_object (allocate 0%Q (PyContinuous1D uniform04) 2 centered)
              = PyContinuous1D uniform04) by reflexivity.
  destruct (run_single_distribution 0%Q 2 _ _ uniform04 D R)
    as (x & Fx & ->).
  vm_compute in Fx. injection Fx as <-. reflexivity.
Defined.

(** The failing [run(3)]: the second column raises, the first is done. *)
Lemma run_list_failure_witness :
  let ds := [uniform04; lower_half] in
  let e := constructed (PyList ds) 2 centered in
  let e' := fst (run 0%Q 3 e) in
  run 0%Q 3 e = (e', inl (ValueError "domain")) /\
  rows (samplesU01 e') = [[3 # 4; 3 # 4]; [1 # 4; 1 # 4]]%Q /\
  exists k, ([uniform04; lower_half] !! k = Some lower_half) /\
            LHS.kept 0%Q (fun c => (k <= c)%nat) (samples e) (samples e').
Proof.
  cbn zeta.
  assert (R : run 0%Q 3 (constructed (PyList [uniform04; lower_half]) 2 centered)
              = (fst (run 0%Q 3 (constructed (PyList [uniform04; lower_half])
                                   2 centered)), inl (ValueError "domain")))
    by reflexivity.
  split; [exact R|]. split; [reflexivity|].
  set (e := constructed (PyList [uniform04; lower_half]) 2 centered) in *.
  set (cb := create_bins (criterion e) (samples e)).
  set (gs := generate_samples (fst cb)).
  assert (D : dist_object e = PyList [uniform04; lower_half]) by reflexivity.
  assert (B : cb = (fst cb, inr tt)) by reflexivity.
  assert (G : gs = (fst gs, inr (samplesU01 (fst (run 0%Q 3 e)))))
    by reflexivity.
  destruct (run_list_failure 0%Q 3 e _ [uniform04; lower_half] _ _ _ _
              D B G R ltac:(lia))
    as (_ & k & d & f & Hk & F & _ & K & _).
  exists k. split; [|exact K].
  destruct k as [|[|k]]; cbn in Hk; try discriminate Hk;
    injection Hk as <-; [|reflexivity].
  exfalso. destruct K as [_ K]. specialize (K 0%nat 0%nat (Nat.le_refl _)).
  vm_compute in K. discriminate K.
Defined.

(** The construction shape on the Centered criterion. *)
Lemma init_shape_witness :
  let d := PyJointIndependent [uniform04; no_icdf] in
  (forall draw,
     __init__ 0%Q draw d 3 centered = inr (constructed d 3 centered)) /\
  shape (samplesU01 (constructed d 3 centered)) = [3; 2]%nat.
Proof.
  cbn zeta.
  assert (I : forall draw,
            __init__ 0%Q draw (PyJointIndependent [uniform04; no_icdf]) 3
              centered
            = inr (constructed (PyJointIndependent [uniform04; no_icdf])
                     3 centered))
    by (intros draw; apply constructed_init; [reflexivity|reflexivity|lia]).
  split; [exact I|].
  destruct (init_shape 0%Q _ 3 centered _ [uniform04; no_icdf]
              Centered_conforming (or_intror eq_refl) 0%nat (I 0%nat))
    as (_ & _ & _ & _ & S).
  exact S.
Defined.

(** A joint aggregate of two marginals with [icdf], and their list. *)
Lemma run_joint_as_list_witness :
  let ms := [uniform04; uniform04] in
  let self := allocate 0%Q (PyJointIndependent ms) 2 centered in
  forallb hasattr_icdf ms = true /\
  option_rows (samples (fst (run 0%Q 2 (with_dist_object self (PyList ms)))))
    = option_rows (samples (fst (run 0%Q 2 self))) /\
  option_rows (samples (fst (run 0%Q 2 self)))
    = Some [[4 # 4; 4 # 4]; [12 # 4; 12 # 4]]%Q.
Proof.
  cbn zeta. split; [reflexivity|]. split; [|reflexivity].
  rewrite (run_joint_as_list 0%Q 2
             (allocate 0%Q (PyJointIndependent [uniform04; uniform04]) 2
                centered)
             [uniform04; uniform04] eq_refl eq_refl).
  reflexivity.
Defined.

(** The Centered criterion cannot read the shape of [None]. *)
Lemma init_other_distribution_witness :
  0 < 2 /\
  forall draw,
    __init__ 0%Q draw (PyOtherDistribution (V := Q)) 2 centered
      = inl AttributeError.
Proof.
  split; [lia|]. intros draw.
  rewrite (init_other_distribution 0%Q 2 centered ltac:(lia) draw).
  reflexivity.
Defined.

End LHS_Theory.

Module JC_Theory.
Import JC.

(** **** Strings *)

Lemma split_nonempty sep s : split sep s <> [].
Proof.
  destruct s as [|c s]; cbn; [discriminate|].
  destruct (Ascii.eqb c sep); [discriminate|].
  destruct (split sep s); discriminate.
Qed.

Lemma split_String sep c s :
  split sep (String c s) =
    if Ascii.eqb c sep then "" :: split sep s
    else match split sep s with
         | w :: ws => String c w :: ws
         | [] => [String c ""]
         end.
Proof. reflexivity. Qed.

Lemma split_app sep k t :
  split sep (k +:+ String sep t) = split sep k ++ split sep t.
Proof.
  induction k as [|c k IH].
  - change ("" +:+ String sep t) with (String sep t).
    rewrite split_String, Ascii.eqb_refl. reflexivity.
  - change (String c k +:+ String sep t) with (String c (k +:+ String sep t)).
    rewrite !split_String, IH.
    destruct (Ascii.eqb c sep); [reflexivity|].
    pose proof (split_nonempty sep k) as N.
    destruct (split sep k) as [|w ws]; [contradiction|reflexivity].
Qed.

Lemma split_without sep t : contains sep t = false -> split sep t = [t].
Proof.
  induction t as [|c t IH]; cbn; [reflexivity|].
  intros [E N]%orb_false_elim. rewrite E, (IH N). reflexivity.
Qed.

Lemma join_cons sep c w ws :
  join sep (String c w :: ws) = String c (join sep (w :: ws)).
Proof. destruct ws; reflexivity. Qed.

Lemma join_split s : join "_" (split "_" s) = s.
Proof.
  induction s as [|c s IH]; cbn; [reflexivity|].
  pose proof (split_nonempty "_" s) as N.
  destruct (Ascii.eqb_spec c "_") as [->|_].
  - destruct (split "_" s) as [|w ws] eqn:E; [contradiction|].
    change (join "_" ("" :: w :: ws)) with (String "_" (join "_" (w :: ws))).
    rewrite IH. reflexivity.
  - destruct (split "_" s) as [|w ws] eqn:E; [contradiction|].
    rewrite join_cons, IH. reflexivity.
Qed.

Lemma append_sep k t : (k +:+ "_") +:+ t = k +:+ String "_" t.
Proof.
  induction k as [|c k IH]; [reflexivity|].
  change (String c ((k +:+ "_") +:+ t) = String c (k +:+ String "_" t)).
  rewrite IH. reflexivity.
Qed.

(** A key with its suffix splits into the two. *)
Lemma key_index_suffix k t :
  contains "_" t = false -> key_index (k +:+ String "_" t) = (k, t).
Proof.
  intros N. unfold key_index. rewrite split_app, (split_without _ _ N).
  rewrite removelast_last, last_last, join_split. reflexivity.
Qed.

Lemma suffix_inj k t k' t' :
  contains "_" t = false -> contains "_" t' = false ->
  k +:+ String "_" t = k' +:+ String "_" t' -> k = k' /\ t = t'.
Proof.
  intros N N' E. pose proof (key_index_suffix k t N) as P.
  rewrite E, (key_index_suffix k' t' N') in P. injection P as -> ->. auto.
Qed.

Lemma digits_without_sep d : contains "_" (NilEmpty.string_of_uint d) = false.
Proof. induction d; cbn; auto. Qed.

Lemma str_without_sep i : contains "_" (str i) = false.
Proof.
  unfold str, NilZero.string_of_uint.
  destruct (Nat.to_uint i) eqn:E; try (rewrite <- E; apply digits_without_sep).
  reflexivity.
Qed.

Lemma int_str i : int (str i) = Some i.
Proof.
  unfold int, str. pose proof (Unsigned.of_to i) as OT.
  destruct (Nat.to_uint i) eqn:E;
    try (rewrite NilZero.usu by discriminate; cbn [option_map]; f_equal;
         exact OT).
  rewrite <- OT. reflexivity.
Qed.

Lemma str_inj i j : str i = str j -> i = j.
Proof.
  intros E. pose proof (int_str i) as A. rewrite E, int_str in A.
  congruence.
Qed.

Lemma str_not_c i : str i <> "c".
Proof. intros E. pose proof (int_str i) as A. rewrite E in A. discriminate A. Qed.

Lemma str_c_eqb i : String.eqb (str i) "c" = false.
Proof. apply String.eqb_neq, str_not_c. Qed.

(** **** Dictionaries *)

Section Joint.
Context {V : Type}.
Variable check_marginals : list (Object V) -> exn + unit.

Section AddItems.
Variable t : string.
Hypothesis N : contains "_" t = false.

(** What the loop has made of [params] when it has been through the
    items of [d]. *)
Lemma add_items_spec (d params : gmap string V) :
  (forall k,
     add_items (String "_" t) d params !! (k +:+ String "_" t) =
       match d !! k with
       | Some v => Some v
       | None => params !! (k +:+ String "_" t)
       end) /\
  (forall key, (forall k, key <> k +:+ String "_" t) ->
     add_items (String "_" t) d params !! key = params !! key) /\
  (forall key, is_Some (add_items (String "_" t) d params !! key) ->
     is_Some (params !! key) \/
     exists k, key = k +:+ String "_" t /\ is_Some (d !! k)).
Proof.
  unfold add_items.
  apply (map_fold_weak_ind (fun r m =>
    (forall k, r !! (k +:+ String "_" t) =
       match m !! k with
       | Some v => Some v
       | None => params !! (k +:+ String "_" t)
       end) /\
    (forall key, (forall k, key <> k +:+ String "_" t) ->
       r !! key = params !! key) /\
    (forall key, is_Some (r !! key) ->
       is_Some (params !! key) \/
       exists k, key = k +:+ String "_" t /\ is_Some (m !! k)))).
  - split; [|split]; auto.
  - intros i x m r Hi (A & B & D). split; [|split].
    + intros k. destruct (decide (i = k)) as [->|Ne].
      * rewrite !lookup_insert_eq. reflexivity.
      * rewrite !lookup_insert_ne, A; [reflexivity|exact Ne|].
        intros [E _]%suffix_inj; auto.
    + intros key F. rewrite lookup_insert_ne by (intros E; exact (F i (eq_sym E))).
      apply B, F.
    + intros key S. destruct (decide (i +:+ String "_" t = key)) as [<-|Ne].
      * right. exists i. rewrite lookup_insert_eq. eauto.
      * rewrite lookup_insert_ne in S by exact Ne.
        destruct (D key S) as [P|(k & -> & Sk)]; [left; exact P|right].
        exists k. split; [reflexivity|].
        rewrite lookup_insert_ne; [exact Sk|]. intros ->.
        rewrite Hi in Sk. destruct Sk as [? [=]].
Qed.

Lemma lookup_add_items (d params : gmap string V) k :
  add_items (String "_" t) d params !! (k +:+ String "_" t) =
    match d !! k with
    | Some v => Some v
    | None => params !! (k +:+ String "_" t)
    end.
Proof. apply add_items_spec. Qed.

Lemma lookup_add_items_other (d params : gmap string V) key :
  (forall k, key <> k +:+ String "_" t) ->
  add_items (String "_" t) d params !! key = params !! key.
Proof. apply add_items_spec. Qed.

Lemma lookup_add_items_is_Some (d params : gmap string V) key :
  is_Some (add_items (String "_" t) d params !! key) ->
  is_Some (params !! key) \/
  exists k, key = k +:+ String "_" t /\ is_Some (d !! k).
Proof. apply add_items_spec. Qed.
End AddItems.

(** **** What [get_parameters] returns *)

(** The key of parameter [k] of the marginal of index [i]. *)
Abbreviation key_of k i := (k +:+ String "_" (str i)).

Lemma key_of_inj k i k' i' : key_of k i = key_of k' i' -> k = k' /\ i = i'.
Proof.
  intros [-> E]%suffix_inj; auto using str_without_sep, str_inj.
Qed.

Lemma key_of_not_copula k i k' : key_of k i <> k' +:+ "_c".
Proof.
  intros [_ E]%suffix_inj; auto using str_without_sep.
  exact (str_not_c _ E).
Qed.

Lemma marginal_items_spec (h : heap V) ms : forall i params p,
  marginal_items h ms i params = Some p ->
  (forall j l m k, ms !! j = Some l -> h !! l = Some m ->
     p !! key_of k (i + j) =
       match parameters m !! k with
       | Some v => Some v
       | None => params !! key_of k (i + j)
       end) /\
  (forall key, (forall j k, (j < length ms)%nat -> key <> key_of k (i + j)) ->
     p !! key = params !! key) /\
  (forall key, is_Some (p !! key) ->
     is_Some (params !! key) \/
     exists j k l m, key = key_of k (i + j) /\ ms !! j = Some l /\
                     h !! l = Some m /\ is_Some (parameters m !! k)).
Proof.
  induction ms as [|l0 ms IH]; intros i params p; cbn [marginal_items].
  - intros [= <-]. split; [intros j l m k [=]|]. split; auto.
  - destruct (h !! l0) as [m0|] eqn:H0; [|intros [=]].
    change ("_" +:+ str i) with (String "_" (str i)).
    pose proof (str_without_sep i) as I.
    intros (A & B & D)%IH. split; [|split].
    + intros j l m k Hj Hl. destruct j as [|j]; cbn in Hj.
      * injection Hj as <-. rewrite H0 in Hl. injection Hl as <-.
        rewrite Nat.add_0_r, B.
        { apply lookup_add_items, I. }
        intros j k' _ [_ E]%key_of_inj. lia.
      * replace (i + S j)%nat with (S i + j)%nat by lia.
        rewrite (A j l m k Hj Hl).
        rewrite lookup_add_items_other; [reflexivity|exact I|].
        intros k' [_ E]%key_of_inj. lia.
    + intros key N. rewrite B.
      * apply lookup_add_items_other; [exact I|].
        intros k E. apply (N 0%nat k); [cbn; lia|].
        rewrite Nat.add_0_r. exact E.
      * intros j k Hj E. apply (N (S j) k); [cbn; lia|].
        replace (i + S j)%nat with (S i + j)%nat by lia. exact E.
    + intros key [S|(j & k & l & m & -> & Hj & Hl & Hk)]%D.
      * apply lookup_add_items_is_Some in S
          as [S|(k & -> & Hk)]; [left; exact S|right|exact I].
        exists 0%nat, k, l0, m0. rewrite Nat.add_0_r. auto.
      * right. exists (S j), k, l, m.
        replace (i + S j)%nat with (S i + j)%nat by lia. auto.
Qed.

Lemma get_parameters_spec (h : heap V) (self : JointCopula V) params :
  get_parameters h self = inr params ->
  (forall k, params !! (k +:+ "_c") = parameters (copula self) !! k) /\
  (forall j l m k, marginals self !! j = Some l -> h !! l = Some m ->
     params !! key_of k j = parameters m !! k) /\
  (forall key, is_Some (params !! key) ->
     (exists k, key = k +:+ "_c" /\
                is_Some (parameters (copula self) !! k)) \/
     exists j k l m, key = key_of k j /\ marginals self !! j = Some l /\
                     h !! l = Some m /\ is_Some (parameters m !! k)).
Proof.
  unfold get_parameters.
  destruct (marginal_items h (marginals self) 0 ∅) as [p|] eqn:M;
    [|intros [=]].
  intros [= <-]. apply marginal_items_spec in M as (A & B & D).
  unfold Object_get_parameters. cbn [Nat.add] in A, B, D.
  assert (I : contains "_" "c" = false) by reflexivity.
  change "_c" with (String "_" "c") in *. split; [|split].
  - intros k. rewrite lookup_add_items by exact I.
    destruct (parameters (copula self) !! k); [reflexivity|].
    rewrite B; [apply lookup_empty|].
    intros j k' _ E. symmetry in E. exact (key_of_not_copula _ _ _ E).
  - intros j l m k Hj Hl.
    rewrite lookup_add_items_other
      by (exact I || intros k'; apply key_of_not_copula).
    rewrite (A j l m k Hj Hl), lookup_empty.
    destruct (parameters m !! k); reflexivity.
  - intros key S.
    apply lookup_add_items_is_Some in S as [S|S];
      [right|left; exact S|exact I].
    apply D in S as [[v S]|S]; [rewrite lookup_empty in S; discriminate S|].
    exact S.
Qed.

(** **** What [update_parameters] does *)

Lemma set_parameter_id (o : Object V) k v :
  parameters o !! k = Some v -> set_parameter o k v = o.
Proof.
  intros L. destruct o as [ps os ms]. unfold set_parameter. cbn in *.
  f_equal. apply insert_id, L.
Qed.

Lemma with_copula_id (self : JointCopula V) :
  with_copula self (copula self) = self.
Proof. destruct self. reflexivity. Qed.

(** A recognised copula keyword. *)
Lemma update_parameter_copula (h : heap V) self (keys : gset string) k v :
  k +:+ "_c" ∈ keys ->
  update_parameter keys (k +:+ "_c") v (h, self) =
    ((h, with_copula self (set_parameter (copula self) k v)), inr tt).
Proof.
  intros In. unfold update_parameter.
  rewrite bool_decide_eq_false_2 by (intros N; exact (N In)).
  change "_c" with (String "_" "c").
  rewrite key_index_suffix by reflexivity. reflexivity.
Qed.

(** A recognised keyword of the marginal of index [i]. *)
Lemma update_parameter_marginal (h : heap V) self (keys : gset string)
    k i l m v :
  key_of k i ∈ keys -> marginals self !! i = Some l -> h !! l = Some m ->
  update_parameter keys (key_of k i) v (h, self) =
    ((<[l := set_parameter m k v]> h, self), inr tt).
Proof.
  intros In Hi Hl. unfold update_parameter.
  rewrite bool_decide_eq_false_2 by (intros N; exact (N In)).
  rewrite key_index_suffix by apply str_without_sep.
  rewrite str_c_eqb, int_str, Hi, Hl. reflexivity.
Qed.

Lemma update_parameter_unrecognized (st : state V) (keys : gset string)
    key v :
  key ∉ keys ->
  update_parameter keys key v st =
    (st, inl (ValueError ("Unrecognized keyword argument " +:+ key))).
Proof.
  intros N. destruct st as [h self]. unfold update_parameter.
  rewrite bool_decide_eq_true_2 by exact N. reflexivity.
Qed.

Lemma update_parameter_same (h : heap V) self params key v :
  get_parameters h self = inr params -> params !! key = Some v ->
  update_parameter (dom params) key v (h, self) = ((h, self), inr tt).
Proof.
  intros G L. pose proof (get_parameters_spec h self params G) as (A & B & D).
  assert (In : key ∈ dom params) by (apply elem_of_dom; eauto).
  destruct (D key (ex_intro _ v L)) as
    [(k & -> & _)|(j & k & l & m & -> & Hj & Hl & _)].
  - rewrite update_parameter_copula by exact In.
    rewrite A in L. rewrite (set_parameter_id _ _ _ L), with_copula_id.
    reflexivity.
  - rewrite (update_parameter_marginal h self _ k j l m v In Hj Hl).
    rewrite (B j l m k Hj Hl) in L.
    rewrite (set_parameter_id _ _ _ L), (insert_id _ _ _ Hl).
    reflexivity.
Qed.

Lemma update_loop_same (h : heap V) self params kwargs :
  get_parameters h self = inr params ->
  (forall k v, (k, v) ∈ kwargs -> params !! k = Some v) ->
  update_loop (dom params) kwargs (h, self) = ((h, self), inr tt).
Proof.
  intros G. induction kwargs as [|[k v] kwargs IH]; intros F;
    [reflexivity|].
  cbn [update_loop].
  rewrite (update_parameter_same h self params k v G)
    by (apply F; left).
  apply IH. intros k' v' In. apply F. right. exact In.
Qed.

Lemma update_parameter_attributes (keys : gset string) key v
    (st st' : state V) r :
  update_parameter keys key v st = (st', r) ->
  marginals (snd st') = marginals (snd st) /\
  cdf (snd st') = cdf (snd st) /\ pdf (snd st') = pdf (snd st) /\
  log_pdf (snd st') = log_pdf (snd st).
Proof.
  destruct st as [h self]. unfold update_parameter.
  destruct (bool_decide (key ∉ keys)); [intros [= <- _]; auto|].
  destruct (key_index key) as [k index].
  destruct (String.eqb index "c"); [intros [= <- _]; auto|].
  destruct (int index) as [i|]; [|intros [= <- _]; auto].
  destruct (marginals self !! i) as [l|]; [|intros [= <- _]; auto].
  destruct (h !! l) as [m|]; intros [= <- _]; auto.
Qed.

Lemma update_loop_attributes (keys : gset string) kwargs :
  forall (st st' : state V) r,
  update_loop keys kwargs st = (st', r) ->
  marginals (snd st') = marginals (snd st) /\
  cdf (snd st') = cdf (snd st) /\ pdf (snd st') = pdf (snd st) /\
  log_pdf (snd st') = log_pdf (snd st).
Proof.
  induction kwargs as [|[k v] kwargs IH]; intros st st' r; cbn [update_loop].
  - intros [= <- _]. auto.
  - destruct (update_parameter keys k v st) as [st1 [e|[]]] eqn:U;
      apply update_parameter_attributes in U as (A1 & B1 & C1 & D1).
    + intros [= <- _]. auto.
    + intros (A2 & B2 & C2 & D2)%IH. repeat split; congruence.
Qed.

Lemma forallb_Forall_true {A} (f : A -> bool) (l : list A) :
  forallb f l = true <-> Forall (fun x => f x = true) l.
Proof.
  rewrite List.Forall_forall, forallb_forall. reflexivity.
Qed.

Lemma is_Some_if {A} (b : bool) (x : A) :
  is_Some (if b then Some x else None) <-> b = true.
Proof.
  destruct b; split; eauto; try discriminate.
  intros [y [=]].
Qed.

(** **** The claims on the joint *)

(** C7.  A [JointCopula] that the constructor returns has a marginal
    list all of whose members have [cdf]; it has the attribute [cdf]
    exactly if its copula has [evaluate_cdf], [pdf] exactly if every
    marginal has [pdf] and the copula has [evaluate_pdf], and [log_pdf]
    exactly if every marginal has [log_pdf] and the copula has
    [evaluate_pdf].  If a marginal lacks [cdf] the constructor raises.
    No later [update_parameters] changes the three attributes. *)
Theorem init_capabilities (h : heap V) (ms : list nat) (c : Object V) objs :
  deref h ms = Some objs ->
  (forall self, __init__ check_marginals h ms c = inr self ->
     Forall (fun m => hasattr m "cdf" = true) objs /\
     (is_Some (cdf self) <-> hasattr c "evaluate_cdf" = true) /\
     (is_Some (pdf self) <->
        Forall (fun m => hasattr m "pdf" = true) objs /\
        hasattr c "evaluate_pdf" = true) /\
     (is_Some (log_pdf self) <->
        Forall (fun m => hasattr m "log_pdf" = true) objs /\
        hasattr c "evaluate_pdf" = true) /\
     forall kwargs h' st' r,
       update_parameters kwargs (h', self) = (st', r) ->
       cdf (snd st') = cdf self /\ pdf (snd st') = pdf self /\
       log_pdf (snd st') = log_pdf self) /\
  (Exists (fun m => hasattr m "cdf" = false) objs ->
   exists e, __init__ check_marginals h ms c = inl e).
Proof.
  intros Dr. split.
  - intros self. unfold __init__. rewrite Dr.
    destruct (forallb (fun m => hasattr m "cdf") objs) eqn:Fc;
      cbn [negb]; [|intros [=]].
    destruct (check_marginals objs) as [e|[]]; [intros [=]|].
    intros [= <-]. cbn.
    split; [apply forallb_Forall_true, Fc|].
    split; [apply is_Some_if|].
    split; [rewrite is_Some_if, andb_true_iff, forallb_Forall_true;
            reflexivity|].
    split; [rewrite is_Some_if, andb_true_iff, forallb_Forall_true;
            reflexivity|].
    intros kwargs h' st' r U. unfold update_parameters in U. cbn in U.
    destruct (get_parameters h' _) as [e|params];
      [injection U as <- _; auto|].
    apply update_loop_attributes in U as (_ & A & B & D). auto.
  - intros Ex. unfold __init__. rewrite Dr.
    destruct (forallb (fun m => hasattr m "cdf") objs) eqn:Fc;
      cbn [negb]; [|eauto].
    apply forallb_Forall_true in Fc.
    apply List.Exists_exists in Ex as (m & In & F).
    rewrite List.Forall_forall in Fc. rewrite (Fc m) in F by exact In.
    discriminate F.
Qed.

(** C8.  Passing to [update_parameters] the dictionary that
    [get_parameters] returned, in whatever order its items come, raises
    nothing and leaves every marginal object and the copula as they
    were, so that [get_parameters] returns the same dictionary again.
    Parameter names are arbitrary strings, with or without the
    separator. *)
Theorem update_get_roundtrip (h : heap V) (self : JointCopula V)
    (params : gmap string V) (kwargs : list (string * V)) :
  get_parameters h self = inr params ->
  kwargs ≡ₚ map_to_list params ->
  exists st',
    update_parameters kwargs (h, self) = (st', inr tt) /\
    st' = (h, self) /\
    get_parameters (fst st') (snd st') = inr params.
Proof.
  intros G P. exists (h, self). split; [|split; [reflexivity|exact G]].
  unfold update_parameters. cbn [fst snd]. rewrite G.
  apply update_loop_same; [exact G|].
  intros k v In. rewrite P in In. apply elem_of_map_to_list, In.
Qed.

(** C10, as the code has it.  With one keyword, [update_parameters]
    raises [ValueError] if the keyword is not a key of [get_parameters];
    for a keyword [key_c] it sets parameter [key] of the copula and
    nothing else; for a keyword [key_i] it sets parameter [key] of the
    distribution object that is listed at index [i], and no other
    parameter of this object and no other object.  (The object may be
    listed at other indices too.) *)
Theorem update_single_keyword (h : heap V) (self : JointCopula V)
    (params : gmap string V) (key_indexed : string) (value : V) :
  get_parameters h self = inr params ->
  (key_indexed ∉ dom params ->
     update_parameters [(key_indexed, value)] (h, self) =
       ((h, self),
        inl (ValueError ("Unrecognized keyword argument " +:+ key_indexed))))
  /\
  (forall key,
     key_indexed = key +:+ "_c" ->
     is_Some (parameters (copula self) !! key) ->
     exists c',
       update_parameters [(key_indexed, value)] (h, self) =
         ((h, with_copula self c'), inr tt) /\
       parameters c' !! key = Some value /\
       forall key', key' <> key ->
         parameters c' !! key' = parameters (copula self) !! key') /\
  (forall key i l m,
     key_indexed = (key +:+ "_") +:+ str i ->
     marginals self !! i = Some l -> h !! l = Some m ->
     is_Some (parameters m !! key) ->
     exists h' m',
       update_parameters [(key_indexed, value)] (h, self) =
         ((h', self), inr tt) /\
       h' !! l = Some m' /\
       (forall l', l' <> l -> h' !! l' = h !! l') /\
       parameters m' !! key = Some value /\
       forall key', key' <> key ->
         parameters m' !! key' = parameters m !! key').
Proof.
  intros G. pose proof (get_parameters_spec h self params G) as (A & B & _).
  unfold update_parameters. cbn [fst snd update_loop]. rewrite G.
  split; [|split].
  - intros N. rewrite update_parameter_unrecognized by exact N. reflexivity.
  - intros key -> S. exists (set_parameter (copula self) key value).
    rewrite update_parameter_copula
      by (apply elem_of_dom; rewrite A; exact S).
    split; [reflexivity|]. cbn. split; [apply lookup_insert_eq|].
    intros key' N. apply lookup_insert_ne. congruence.
  - intros key i l m -> Hi Hl S. rewrite append_sep.
    exists (<[l := set_parameter m key value]> h), (set_parameter m key value).
    rewrite (update_parameter_marginal h self _ key i l m value)
      by (try apply elem_of_dom; try rewrite (B i l m key Hi Hl); auto).
    unfold heap in *.
    split; [reflexivity|]. split; [apply lookup_insert_eq|].
    split; [intros l' N; apply lookup_insert_ne; congruence|].
    cbn. split; [apply lookup_insert_eq|].
    intros key' N. apply lookup_insert_ne. congruence.
Qed.

End Joint.

(** **** The joint on concrete objects *)

(** A joint of a marginal without [log_pdf] and one with it has [pdf] and
    has no [log_pdf]. *)
Lemma init_capabilities_witness :
  deref two_objects [0; 1]%nat = Some [mixture; normal] /\
  __init__ no_check two_objects [0; 1]%nat gumbel = inr joint_of_two /\
  is_Some (pdf joint_of_two) /\ ~ is_Some (log_pdf joint_of_two).
Proof.
  assert (D : deref two_objects [0; 1]%nat = Some [mixture; normal])
    by reflexivity.
  assert (I : __init__ no_check two_objects [0; 1]%nat gumbel
              = inr joint_of_two) by reflexivity.
  destruct (init_capabilities no_check two_objects [0; 1]%nat gumbel _ D)
    as [X _].
  destruct (X _ I) as (_ & _ & P & L & _).
  split; [exact D|]. split; [exact I|].
  split; [apply P; split; [repeat constructor|reflexivity]|].
  intros S. apply L in S as [F _]. inversion F as [|? ? Hm _]; subst.
  discriminate Hm.
Defined.

(** The round trip on a joint one of whose parameter names has the
    separator in it. *)
Lemma update_get_roundtrip_witness :
  get_parameters two_objects joint_of_two = inr parameters_of_two /\
  exists st',
    update_parameters (map_to_list parameters_of_two)
      (two_objects, joint_of_two) = (st', inr tt) /\
    st' = (two_objects, joint_of_two) /\
    get_parameters (fst st') (snd st') = inr parameters_of_two.
Proof.
  assert (G : get_parameters two_objects joint_of_two = inr parameters_of_two)
    by (vm_compute; reflexivity).
  split; [exact G|].
  exact (update_get_roundtrip two_objects joint_of_two parameters_of_two
           (map_to_list parameters_of_two) G (reflexivity _)).
Defined.

(** C10 fails on a joint that lists one distribution object twice: the
    keyword [loc_0] also changes parameter [loc] of the marginal of index
    one, which [get_parameters] shows under [loc_1]. *)
Lemma shared_marginal_changes_twice :
  __init__ no_check one_object [0; 0]%nat gumbel = inr joint_of_one_twice /\
  exists before h' after,
    get_parameters one_object joint_of_one_twice = inr before /\
    update_parameters [("loc_0", 5)] (one_object, joint_of_one_twice)
      = ((h', joint_of_one_twice), inr tt) /\
    get_parameters h' joint_of_one_twice = inr after /\
    before !! "loc_1" = Some 0 /\ after !! "loc_1" = Some 5.
Proof.
  split; [reflexivity|].
  eexists _, _, _. split; [vm_compute; reflexivity|].
  split; [vm_compute; reflexivity|].
  split; [vm_compute; reflexivity|].
  split; vm_compute; reflexivity.
Qed.

(** The keyword [n_1_0] sets parameter [n_1] of the first marginal, and
    neither its parameter [n] nor the second marginal. *)
Lemma update_single_keyword_witness :
  get_parameters two_objects joint_of_two = inr parameters_of_two /\
  "n_1_0" ∈ dom parameters_of_two /\
  exists h' m',
    update_parameters [("n_1_0", 7)] (two_objects, joint_of_two) =
      ((h', joint_of_two), inr tt) /\
    h' !! 0%nat = Some m' /\ h' !! 1%nat = Some normal /\
    parameters m' !! "n_1" = Some 7 /\ parameters m' !! "n" = Some 4.
Proof.
  assert (G : get_parameters two_objects joint_of_two = inr parameters_of_two)
    by (vm_compute; reflexivity).
  split; [exact G|]. split; [vm_compute; reflexivity|].
  destruct (update_single_keyword two_objects joint_of_two parameters_of_two
              "n_1_0" 7 G) as (_ & _ & X).
  destruct (X "n_1" 0%nat 0%nat mixture eq_refl eq_refl eq_refl
              ltac:(eexists; reflexivity))
    as (h' & m' & U & H0 & Hother & Pk & Pother).
  exists h', m'. split; [exact U|]. split; [exact H0|].
  split; [rewrite Hother by discriminate; reflexivity|].
  split; [exact Pk|]. rewrite Pother by discriminate. reflexivity.
Defined.

(** **** More on the joint: keys, names and partial updates *)

Lemma split_with sep s :
  contains sep s = true -> exists w ws, split sep s = w :: ws /\ ws <> [].
Proof.
  induction s as [|c s IH]; [discriminate|].
  rewrite split_String. cbn [contains].
  pose proof (split_nonempty sep s) as N.
  destruct (Ascii.eqb c sep); cbn [orb].
  - intros _. exists EmptyString, (split sep s). auto.
  - intros (w & ws & -> & Nw)%IH. exists (String c w), ws. auto.
Qed.

Lemma split_parts_without sep s : Forall (fun w => contains sep w = false) (split sep s).
Proof.
  induction s as [|c s IH]; [repeat constructor|].
  rewrite split_String. pose proof (split_nonempty sep s) as N.
  destruct (Ascii.eqb c sep) eqn:E; [constructor; [reflexivity|exact IH]|].
  destruct (split sep s) as [|w ws]; [contradiction|].
  inversion IH as [|? ? Hw Hws]; subst. constructor; [|exact Hws].
  cbn. rewrite E. exact Hw.
Qed.

Lemma string_append_assoc (a b c : string) :
  (a +:+ b) +:+ c = a +:+ b +:+ c.
Proof.
  induction a as [|x a IH]; [reflexivity|].
  change (String x ((a +:+ b) +:+ c) = String x (a +:+ b +:+ c)).
  rewrite IH. reflexivity.
Qed.

Lemma join_snoc sep l w :
  l <> [] -> join sep (l ++ [w]) = join sep l +:+ sep +:+ w.
Proof.
  induction l as [|a l IH]; [contradiction|]. intros _.
  destruct l as [|b l]; [reflexivity|].
  change (join sep ((a :: b :: l) ++ [w]))
    with (a +:+ sep +:+ join sep ((b :: l) ++ [w])).
  rewrite IH by discriminate.
  change (join sep (a :: b :: l)) with (a +:+ sep +:+ join sep (b :: l)).
  rewrite !string_append_assoc. reflexivity.
Qed.

(** The split of a keyword at its last underscore loses nothing.  A
    keyword with an underscore is its [key], an underscore and its
    [index], and the [index] has no underscore; of a keyword without an
    underscore the [key] is empty and the [index] is the whole keyword. *)
Theorem key_index_lossless (key_indexed : string) :
  let '(key, index) := key_index key_indexed in
  contains "_" index = false /\
  if contains "_" key_indexed
  then key_indexed = (key +:+ "_") +:+ index
  else key = EmptyString /\ index = key_indexed.
Proof.
  unfold key_index.
  pose proof (split_parts_without "_" key_indexed) as P.
  pose proof (join_split key_indexed) as J.
  destruct (contains "_" key_indexed) eqn:Ct.
  - destruct (split_with _ _ Ct) as (w & ws & E & N). rewrite E in *.
    destruct (exists_last N) as (init & z & ->).
    rewrite app_comm_cons, removelast_last, last_last.
    change (w :: init ++ [z]) with ((w :: init) ++ [z]) in P.
    change (w :: init ++ [z]) with ((w :: init) ++ [z]) in J.
    apply Forall_app in P as [_ Pz]. apply List.Forall_inv in Pz.
    split; [exact Pz|].
    rewrite join_snoc in J by discriminate. rewrite append_sep.
    symmetry. exact J.
  - rewrite (split_without _ _ Ct). cbn. auto.
Qed.

Section JointMore.
Context {V : Type}.
Variable check_marginals : list (Object V) -> exn + unit.

Abbreviation key_of k i := (k +:+ String "_" (str i)).

Lemma deref_lookup (h : heap V) ms objs :
  deref h ms = Some objs ->
  forall j m, objs !! j = Some m <->
              exists l, ms !! j = Some l /\ h !! l = Some m.
Proof.
  unfold deref. intros F%mapM_Some j m. split.
  - intros Hm. destruct (Forall2_lookup_r _ _ _ _ _ F Hm) as (l & Hl & E).
    eauto.
  - intros (l & Hl & E).
    destruct (Forall2_lookup_l _ _ _ _ _ F Hl) as (m' & Hm & E').
    congruence.
Qed.

Lemma marginal_items_is_Some (h : heap V) ms : forall i params,
  is_Some (marginal_items h ms i params) <->
  Forall (fun l => is_Some (h !! l)) ms.
Proof.
  induction ms as [|l ms IH]; intros i params; cbn.
  - split; [constructor|eauto].
  - rewrite Forall_cons. destruct (h !! l) as [m|].
    + rewrite IH. split; [intros F; split; eauto|intros [_ F]; exact F].
    + split; [intros [? [=]]|intros [[? [=]] _]].
Qed.

Lemma deref_is_Some (h : heap V) ms :
  is_Some (deref h ms) <-> Forall (fun l => is_Some (h !! l)) ms.
Proof.
  unfold deref. induction ms as [|l ms IH]; cbn.
  - split; [constructor|eauto].
  - rewrite Forall_cons, <- IH. destruct (h !! l) as [m|]; cbn.
    + destruct (mapM (fun l => h !! l) ms); cbn;
        (split; [intros [? E]; split; eauto; discriminate E
                |intros [_ [? E]]; eauto; discriminate E]).
    + split; [intros [? [=]]|intros [[? [=]] _]].
Qed.

(** What [get_parameters] returns, exactly.  It returns (the marginals
    being there) a dictionary in which [key_c] holds parameter [key] of
    the copula and [key_j] holds parameter [key] of marginal [j], for every
    name [key], with or without underscores: no two parameters share an
    identifier and none is lost.  The dictionary has no other keys. *)
Theorem get_parameters_exact (h : heap V) (self : JointCopula V) objs :
  deref h (marginals self) = Some objs ->
  exists params,
    get_parameters h self = inr params /\
    (forall key, params !! (key +:+ "_c") = parameters (copula self) !! key) /\
    (forall j m key, objs !! j = Some m ->
       params !! ((key +:+ "_") +:+ str j) = parameters m !! key) /\
    (forall key_indexed, is_Some (params !! key_indexed) ->
       (exists key, key_indexed = key +:+ "_c") \/
       exists j m key, key_indexed = (key +:+ "_") +:+ str j /\
                       objs !! j = Some m).
Proof.
  intros D.
  assert (S : is_Some (marginal_items h (marginals self) 0 ∅))
    by (apply marginal_items_is_Some, deref_is_Some; eauto).
  destruct S as [p Hp].
  assert (G : get_parameters h self
              = inr (add_items "_c" (Object_get_parameters (copula self)) p))
    by (unfold get_parameters; rewrite Hp; reflexivity).
  eexists. split; [exact G|].
  destruct (get_parameters_spec h self _ G) as (A & B & X).
  split; [exact A|]. split.
  - intros j m key Hm. apply (deref_lookup h _ _ D) in Hm as (l & Hl & E).
    rewrite append_sep. exact (B j l m key Hl E).
  - intros key_indexed S.
    destruct (X key_indexed S) as [(k & -> & _)|(j & k & l & m & -> & Hl & E & _)];
      [left; eauto|right].
    exists j, m, k. rewrite append_sep. split; [reflexivity|].
    apply (deref_lookup h _ _ D). eauto.
Qed.

Lemma NoDup_map_inj {A B} (f : A -> B) (l : list A) :
  (forall x y, f x = f y -> x = y) -> NoDup l -> NoDup (map f l).
Proof.
  intros I N. induction N as [|x l Hx N IH]; cbn; [apply NoDup_nil_2|].
  apply NoDup_cons_2; [|exact IH].
  rewrite list_elem_of_In, in_map_iff. intros (y & E & Hy).
  apply I in E. subst y. apply Hx, list_elem_of_In, Hy.
Qed.

Lemma ordered_names_elem (objs : list (Object V)) : forall i x,
  In x (ordered_names objs i) ->
  exists j k, (i <= j)%nat /\ x = key_of k j.
Proof.
  induction objs as [|m objs IH]; intros i x; cbn; [intros []|].
  rewrite in_app_iff, in_map_iff. intros [(k & <- & _)|In].
  - exists i, k. split; [lia|apply append_sep].
  - destruct (IH _ _ In) as (j & k & L & ->). exists j, k. split; [lia|auto].
Qed.

Lemma NoDup_ordered_names (objs : list (Object V)) : forall i,
  Forall (fun m => NoDup (ordered_parameters m)) objs ->
  NoDup (ordered_names objs i).
Proof.
  induction objs as [|m objs IH]; intros i F; cbn; [apply NoDup_nil_2|].
  apply Forall_cons in F as [Fm F]. apply NoDup_app. split; [|split].
  - apply NoDup_map_inj; [|exact Fm]. intros a b E.
    rewrite !append_sep in E.
    apply suffix_inj in E as [E _]; auto using str_without_sep.
  - intros x Hx Hx'. rewrite list_elem_of_In in Hx, Hx'.
    apply in_map_iff in Hx as (k & <- & _).
    apply ordered_names_elem in Hx' as (j & k' & L & E).
    rewrite append_sep in E.
    apply suffix_inj in E as [_ E]; auto using str_without_sep.
    apply str_inj in E. lia.
  - apply IH, F.
Qed.

(** The identifiers of the parameters of a joint are unique, as its
    docstring says: if no marginal and not the copula lists a parameter
    name twice, [ordered_parameters] of the joint lists no identifier
    twice, also when a distribution object is a marginal more than once
    and when names have underscores in them. *)
Theorem ordered_parameters_unique (h : heap V) (ms : list nat) (c : Object V)
    (self : JointCopula V) objs :
  __init__ check_marginals h ms c = inr self ->
  deref h ms = Some objs ->
  Forall (fun m => NoDup (ordered_parameters m)) objs ->
  NoDup (ordered_parameters c) ->
  NoDup (self_ordered_parameters self) /\
  length (self_ordered_parameters self) =
    (length (concat (map ordered_parameters objs))
     + length (ordered_parameters c))%nat.
Proof.
  intros I D F Fc. unfold __init__ in I. rewrite D in I.
  destruct (negb (forallb (fun m => hasattr m "cdf") objs)); [discriminate I|].
  destruct (check_marginals objs) as [e|[]]; [discriminate I|].
  injection I as <-. cbn. split.
  - apply NoDup_app. split; [apply NoDup_ordered_names, F|]. split.
    + intros x Hx Hx'. rewrite list_elem_of_In in Hx, Hx'.
      apply ordered_names_elem in Hx as (j & k & _ & ->).
      apply in_map_iff in Hx' as (k' & E & _).
      exact (key_of_not_copula _ _ _ (eq_sym E)).
    + apply NoDup_map_inj; [|exact Fc]. intros a b E.
      change "_c" with (String "_" "c") in E.
      apply suffix_inj in E as [E _]; auto.
  - rewrite length_app, length_map. f_equal.
    generalize 0%nat. clear. induction objs as [|m objs IH]; intros i; cbn;
      [reflexivity|].
    rewrite !length_app, length_map, IH. reflexivity.
Qed.

(** **** Reading back what was updated *)

Lemma elem_of_dom_get_parameters (h : heap V) (self : JointCopula V) p key :
  get_parameters h self = inr p ->
  key ∈ dom p <->
  (exists k, key = k +:+ "_c" /\ is_Some (parameters (copula self) !! k)) \/
  (exists j k l m, key = key_of k j /\ marginals self !! j = Some l /\
                   h !! l = Some m /\ is_Some (parameters m !! k)).
Proof.
  intros G. destruct (get_parameters_spec h self p G) as (A & B & X).
  rewrite elem_of_dom. split; [apply X|].
  intros [(k & -> & S)|(j & k & l & m & -> & Hj & Hl & S)].
  - rewrite A. exact S.
  - rewrite (B j l m k Hj Hl). exact S.
Qed.

Lemma get_parameters_is_inr (h : heap V) (self : JointCopula V) :
  (exists p, get_parameters h self = inr p) <->
  Forall (fun l => is_Some (h !! l)) (marginals self).
Proof.
  rewrite <- (marginal_items_is_Some h (marginals self) 0 ∅).
  unfold get_parameters.
  destruct (marginal_items h (marginals self) 0 ∅) as [p|].
  - split; eauto.
  - split; [intros [p [=]]|intros [p [=]]].
Qed.

Lemma ordered_names_In (objs : list (Object V)) : forall i x,
  In x (ordered_names objs i) <->
  exists j m k, objs !! j = Some m /\ In k (ordered_parameters m) /\
                x = key_of k (i + j).
Proof.
  induction objs as [|m0 objs IH]; intros i x; cbn.
  - split; [intros []|intros (j & m & k & [=] & _)].
  - rewrite in_app_iff, in_map_iff, IH. split.
    + intros [(k & <- & Hk)|(j & m & k & Hj & Hk & ->)].
      * exists 0%nat, m0, k. rewrite Nat.add_0_r, append_sep. auto.
      * exists (S j), m, k. replace (i + S j)%nat with (S i + j)%nat by lia.
        auto.
    + intros (j & m & k & Hj & Hk & ->). destruct j as [|j]; cbn in Hj.
      * injection Hj as ->. left. exists k.
        rewrite Nat.add_0_r, append_sep. auto.
      * right. exists j, m, k.
        replace (i + S j)%nat with (S i + j)%nat by lia. auto.
Qed.

(** The names and the keys of a joint agree.  If every marginal and the
    copula list in [ordered_parameters] the names of their parameters and
    no other, then the joint that the constructor returns lists in
    [ordered_parameters] the keys of what [get_parameters] returns and no
    other. *)
Theorem ordered_parameters_are_keys (h : heap V) (ms : list nat)
    (c : Object V) (self : JointCopula V) objs params :
  __init__ check_marginals h ms c = inr self ->
  deref h ms = Some objs ->
  get_parameters h self = inr params ->
  Forall (fun m => forall k, In k (ordered_parameters m) <->
                             is_Some (parameters m !! k)) objs ->
  (forall k, In k (ordered_parameters c) <-> is_Some (parameters c !! k)) ->
  forall key, In key (self_ordered_parameters self) <-> key ∈ dom params.
Proof.
  intros I D G F Fc key.
  rewrite (elem_of_dom_get_parameters h self params key G).
  unfold __init__ in I. rewrite D in I.
  destruct (negb (forallb (fun m => hasattr m "cdf") objs)); [discriminate I|].
  destruct (check_marginals objs) as [e|[]]; [discriminate I|].
  injection I as <-. cbn [self_ordered_parameters copula marginals].
  rewrite in_app_iff, in_map_iff, ordered_names_In. cbn [Nat.add].
  rewrite List.Forall_forall in F. split.
  - intros [(j & m & k & Hj & Hk & ->)|(k & <- & Hk)].
    + right. apply (deref_lookup h ms objs D) in Hj as Hl.
      destruct Hl as (l & Hl & E). exists j, k, l, m.
      repeat split; try assumption. apply (F m); [|exact Hk].
      apply list_elem_of_In, list_elem_of_lookup. eauto.
    + left. exists k. split; [reflexivity|]. apply Fc, Hk.
  - intros [(k & -> & S)|(j & k & l & m & -> & Hl & E & S)].
    + right. exists k. split; [reflexivity|]. apply Fc, S.
    + left. assert (Hj : objs !! j = Some m)
        by (apply (deref_lookup h ms objs D); eauto).
      exists j, m, k. split; [exact Hj|]. split; [|reflexivity].
      apply (F m); [|exact S].
      apply list_elem_of_In, list_elem_of_lookup. eauto.
Qed.

Lemma update_parameter_keeps_keys (h : heap V) (self : JointCopula V) p
    key v st' :
  get_parameters h self = inr p ->
  update_parameter (dom p) key v (h, self) = (st', inr tt) ->
  exists p', get_parameters (fst st') (snd st') = inr p' /\
             dom p' = dom p /\ p' !! key = Some v.
Proof.
  intros G U. destruct (decide (key ∈ dom p)) as [In|N];
    [|rewrite update_parameter_unrecognized in U by exact N; discriminate U].
  pose proof In as In'.
  apply (elem_of_dom_get_parameters h self p key G) in In'
    as [(k & -> & S)|(j & k & l & m & -> & Hj & Hl & S)].
  - rewrite update_parameter_copula in U by exact In. injection U as <-.
    cbn [fst snd].
    destruct (proj2 (get_parameters_is_inr h
                (with_copula self (set_parameter (copula self) k v))))
      as [p' G'].
    { apply (get_parameters_is_inr h self). eauto. }
    exists p'. split; [exact G'|]. split.
    + apply set_eq. intros key'.
      rewrite (elem_of_dom_get_parameters _ _ _ key' G),
        (elem_of_dom_get_parameters _ _ _ key' G').
      cbn. apply or_iff_compat_r. split.
      * intros (k' & -> & S'). exists k'. split; [reflexivity|].
        apply lookup_insert_is_Some in S' as [<-|[_ S']]; assumption.
      * intros (k' & -> & S'). exists k'. split; [reflexivity|].
        apply lookup_insert_is_Some.
        destruct (decide (k = k')); [left|right]; auto.
    + destruct (get_parameters_spec _ _ _ G') as (A & _ & _).
      rewrite A. cbn. apply lookup_insert_eq.
  - rewrite (update_parameter_marginal h self _ k j l m v In Hj Hl) in U.
    injection U as <-. cbn [fst snd]. unfold heap in *.
    destruct (proj2 (get_parameters_is_inr
                (<[l := set_parameter m k v]> h) self)) as [p' G'].
    { assert (F : Forall (fun l => is_Some (h !! l)) (marginals self))
        by (apply (get_parameters_is_inr h self); eauto).
      eapply Forall_impl; [exact F|]. intros l' S'.
      apply (proj2 (lookup_insert_is_Some h l l' (set_parameter m k v))).
      destruct (decide (l = l')); [left|right]; auto. }
    exists p'. split; [exact G'|]. split.
    + apply set_eq. intros key'.
      rewrite (elem_of_dom_get_parameters _ _ _ key' G),
        (elem_of_dom_get_parameters _ _ _ key' G').
      apply or_iff_compat_l. split.
      * intros (j' & k' & l' & m' & -> & Hj' & Hl' & S'). unfold heap in *.
        destruct (decide (l = l')) as [<-|Ne].
        -- rewrite lookup_insert_eq in Hl'. injection Hl' as <-. cbn in S'.
           exists j', k', l, m. repeat split; try assumption.
           apply lookup_insert_is_Some in S' as [<-|[_ S']]; assumption.
        -- rewrite lookup_insert_ne in Hl' by exact Ne.
           exists j', k', l', m'. auto.
      * intros (j' & k' & l' & m' & -> & Hj' & Hl' & S'). unfold heap in *.
        destruct (decide (l = l')) as [<-|Ne].
        -- exists j', k', l, (set_parameter m k v).
           rewrite lookup_insert_eq. repeat split; try assumption.
           assert (m' = m) as -> by congruence. cbn.
           apply lookup_insert_is_Some.
           destruct (decide (k = k')); [left|right]; auto.
        -- exists j', k', l', m'. rewrite lookup_insert_ne by exact Ne. auto.
    + destruct (get_parameters_spec _ _ _ G') as (_ & B & _).
      rewrite (B j l (set_parameter m k v) k Hj (lookup_insert_eq _ _ _)).
      cbn. apply lookup_insert_eq.
Qed.

Lemma update_loop_keeps_keys (keys : gset string) kwargs :
  forall (h : heap V) (self : JointCopula V) p st',
  get_parameters h self = inr p -> dom p = keys ->
  update_loop keys kwargs (h, self) = (st', inr tt) ->
  exists p', get_parameters (fst st') (snd st') = inr p' /\
             dom p' = keys /\
             forall l key v, kwargs = l ++ [(key, v)] -> p' !! key = Some v.
Proof.
  induction kwargs as [|[k0 v0] kwargs IH]; intros h self p st' G D.
  - intros [= <-]. exists p. split; [exact G|]. split; [exact D|].
    intros [|? ?] key v E; discriminate E.
  - cbn [update_loop].
    destruct (update_parameter keys k0 v0 (h, self)) as [[h1 self1] [e|[]]]
      eqn:U; [intros [=]|].
    rewrite <- D in U.
    destruct (update_parameter_keeps_keys _ _ _ _ _ _ G U)
      as (p1 & G1 & D1 & R1). cbn [fst snd] in G1.
    intros L.
    destruct (IH h1 self1 p1 st' G1 (eq_trans D1 D) L) as (p' & G' & D' & R').
    exists p'. split; [exact G'|]. split; [exact D'|].
    intros l key v E. destruct l as [|x l]; cbn in E.
    + injection E as -> -> ->. cbn in L. injection L as <-.
      cbn [fst snd] in G'. congruence.
    + injection E as _ E. exact (R' l key v E).
Qed.

(** What [update_parameters] has set can be read back, and it adds no
    key and removes none: after a call that returns, [get_parameters]
    returns a dictionary with the keys it had before, in which the last
    keyword of the call holds the value it was given. *)
Theorem update_keeps_keys (h : heap V) (self : JointCopula V) params
    kwargs st' :
  get_parameters h self = inr params ->
  update_parameters kwargs (h, self) = (st', inr tt) ->
  exists params',
    get_parameters (fst st') (snd st') = inr params' /\
    dom params' = dom params /\
    forall l key value, kwargs = l ++ [(key, value)] ->
      params' !! key = Some value.
Proof.
  intros G U. unfold update_parameters in U. cbn [fst snd] in U.
  rewrite G in U.
  exact (update_loop_keeps_keys _ _ _ _ _ _ G eq_refl U).
Qed.

Lemma update_loop_app (keys : gset string) l1 l2 : forall (st : state V),
  update_loop keys (l1 ++ l2) st =
    match update_loop keys l1 st with
    | (st1, inr _) => update_loop keys l2 st1
    | (st1, inl e) => (st1, inl e)
    end.
Proof.
  induction l1 as [|[k v] l1 IH]; intros st; cbn [app update_loop];
    [reflexivity|].
  destruct (update_parameter keys k v st) as [st1 [e|[]]]; [reflexivity|].
  apply IH.
Qed.

(** An update is not all or nothing.  When a keyword is not recognised,
    [update_parameters] raises [ValueError] with the keywords before it
    applied already, and the keywords after it not looked at. *)
Theorem update_stops_at_unrecognized (h : heap V) (self : JointCopula V)
    params l1 l2 key value st1 :
  get_parameters h self = inr params ->
  update_parameters l1 (h, self) = (st1, inr tt) ->
  key ∉ dom params ->
  update_parameters (l1 ++ (key, value) :: l2) (h, self) =
    (st1, inl (ValueError ("Unrecognized keyword argument " +:+ key))).
Proof.
  intros G U N. unfold update_parameters in *. cbn [fst snd] in *.
  rewrite G in *. rewrite update_loop_app, U. cbn [update_loop].
  rewrite update_parameter_unrecognized by exact N. reflexivity.
Qed.

End JointMore.

(** The keys of a joint one of whose parameter names has the separator in
    it. *)
Lemma get_parameters_exact_witness :
  deref two_objects [0; 1]%nat = Some [mixture; normal] /\
  exists params,
    get_parameters two_objects joint_of_two = inr params /\
    params !! "n_1_0" = Some 3 /\ params !! "loc_1" = Some 0 /\
    params !! "theta_c" = Some 2.
Proof.
  assert (D : deref two_objects (marginals joint_of_two)
              = Some [mixture; normal]) by reflexivity.
  split; [exact D|].
  destruct (get_parameters_exact two_objects joint_of_two _ D)
    as (params & G & A & B & _).
  exists params. split; [exact G|].
  split; [exact (B 0%nat mixture "n_1" eq_refl)|].
  split; [exact (B 1%nat normal "loc" eq_refl)|exact (A "theta")].
Defined.

(** A joint that lists one distribution object twice has five different
    identifiers. *)
Lemma ordered_parameters_unique_witness :
  __init__ no_check one_object [0; 0]%nat gumbel = inr joint_of_one_twice /\
  NoDup (self_ordered_parameters joint_of_one_twice) /\
  length (self_ordered_parameters joint_of_one_twice) = 5%nat.
Proof.
  assert (I : __init__ no_check one_object [0; 0]%nat gumbel
              = inr joint_of_one_twice) by reflexivity.
  assert (D : deref one_object [0; 0]%nat = Some [normal; normal])
    by reflexivity.
  assert (N : NoDup ["loc"; "scale"])
    by (apply (bool_decide_unpack _); vm_compute; exact Logic.I).
  assert (Nc : NoDup ["theta"])
    by (apply (bool_decide_unpack _); vm_compute; exact Logic.I).
  assert (F : Forall (fun m : Object Z => NoDup (ordered_parameters m))
                [normal; normal])
    by (constructor; [exact N|constructor; [exact N|constructor]]).
  split; [exact I|].
  exact (ordered_parameters_unique no_check one_object [0; 0]%nat gumbel
           joint_of_one_twice [normal; normal] I D F Nc).
Defined.

Lemma one_name_key {V} (a : string) (x : V) (k : string) :
  In k [a] <-> is_Some ((<[a := x]> ∅ : gmap string V) !! k).
Proof.
  rewrite lookup_insert_is_Some, lookup_empty. cbn. split.
  - intros [E|[]]. left. exact E.
  - intros [E|[_ [? [=]]]]. left. exact E.
Qed.

Lemma two_names_keys {V} (a b : string) (x y : V) (k : string) :
  In k [a; b] <->
  is_Some ((<[a := x]> (<[b := y]> ∅) : gmap string V) !! k).
Proof.
  rewrite lookup_insert_is_Some, <- one_name_key. cbn. split.
  - intros [E|[E|[]]]; [left; exact E|].
    destruct (decide (a = k)); [left|right]; auto.
  - intros [E|[_ [E|[]]]]; auto.
Qed.

(** The names of the joint of two are its five keys. *)
Lemma ordered_parameters_are_keys_witness :
  __init__ no_check two_objects [0; 1]%nat gumbel = inr joint_of_two /\
  get_parameters two_objects joint_of_two = inr parameters_of_two /\
  (In "n_1_0" (self_ordered_parameters joint_of_two) <->
   "n_1_0" ∈ dom parameters_of_two).
Proof.
  assert (I : __init__ no_check two_objects [0; 1]%nat gumbel
              = inr joint_of_two) by reflexivity.
  assert (D : deref two_objects [0; 1]%nat = Some [mixture; normal])
    by reflexivity.
  assert (G : get_parameters two_objects joint_of_two = inr parameters_of_two)
    by (vm_compute; reflexivity).
  split; [exact I|]. split; [exact G|].
  apply (ordered_parameters_are_keys no_check two_objects [0; 1]%nat gumbel
           joint_of_two [mixture; normal] parameters_of_two I D G).
  - apply Forall_cons_2; [|apply Forall_cons_2; [|apply Forall_nil_2]];
      intros k; apply two_names_keys.
  - intros k. apply one_name_key.
Defined.

(** Two keywords on the joint of two: the keys stay, and the last keyword
    is read back. *)
Lemma update_keeps_keys_witness :
  let kwargs := [("n_0", 9); ("theta_c", 5)] in
  let st' := fst (update_parameters kwargs (two_objects, joint_of_two)) in
  get_parameters two_objects joint_of_two = inr parameters_of_two /\
  update_parameters kwargs (two_objects, joint_of_two) = (st', inr tt) /\
  exists params',
    get_parameters (fst st') (snd st') = inr params' /\
    dom params' = dom parameters_of_two /\ params' !! "theta_c" = Some 5.
Proof.
  cbn zeta.
  assert (G : get_parameters two_objects joint_of_two = inr parameters_of_two)
    by (vm_compute; reflexivity).
  assert (U : update_parameters [("n_0", 9); ("theta_c", 5)]
                (two_objects, joint_of_two)
              = (fst (update_parameters [("n_0", 9); ("theta_c", 5)]
                        (two_objects, joint_of_two)), inr tt))
    by (vm_compute; reflexivity).
  split; [exact G|]. split; [exact U|].
  destruct (update_keeps_keys two_objects joint_of_two parameters_of_two
              _ _ G U) as (params' & G' & D' & R').
  exists params'. split; [exact G'|]. split; [exact D'|].
  exact (R' [("n_0", 9)] "theta_c" 5 eq_refl).
Defined.

(** The keyword [n_2] names no parameter: the update of [n_0] before it is
    done, the update of [theta_c] after it is not. *)
Lemma update_stops_at_unrecognized_witness :
  let st1 := fst (update_parameters [("n_0", 9)] (two_objects, joint_of_two)) in
  ("n_2" ∉ dom parameters_of_two) /\
  update_parameters [("n_0", 9); ("n_2", 1); ("theta_c", 5)]
    (two_objects, joint_of_two) =
    (st1, inl (ValueError "Unrecognized keyword argument n_2")) /\
  (exists m, (fst st1) !! 0%nat = Some m /\ parameters m !! "n" = Some 9) /\
  parameters (copula (snd st1)) !! "theta" = Some 2.
Proof.
  cbn zeta.
  assert (G : get_parameters two_objects joint_of_two = inr parameters_of_two)
    by (vm_compute; reflexivity).
  assert (U : update_parameters [("n_0", 9)] (two_objects, joint_of_two)
              = (fst (update_parameters [("n_0", 9)]
                        (two_objects, joint_of_two)), inr tt))
    by (vm_compute; reflexivity).
  assert (N : "n_2" ∉ dom parameters_of_two)
    by (apply (bool_decide_unpack _); vm_compute; exact Logic.I).
  split; [exact N|].
  split; [exact (update_stops_at_unrecognized two_objects joint_of_two
                   parameters_of_two [("n_0", 9)] [("theta_c", 5)] "n_2" 1 _
                   G U N)|].
  split; [eexists; split; vm_compute; reflexivity|vm_compute; reflexivity].
Defined.

End JC_Theory.

Module Mle_Theory.
Import Mle.

Section Estimator.
Context {F Data : Type}.
Variable gt : F -> F -> bool.
Variable neg : F -> F.
Variable initial_guesses : Z -> exn + list (list F).

Abbreviation estimator := (MLE F Data).
Abbreviation result := (list F * F)%type.
Abbreviation best_of := (Mle.best_of gt).
Abbreviation save_result := (Mle.save_result gt).
Abbreviation save_results := (Mle.save_results gt).

(** [number a]: [a] is a number, not the not-a-number of floating point
    arithmetic.  On the numbers [>] is a strict total order, and [a >= b]
    holds exactly if [b > a] does not; about a comparison with a
    not-a-number nothing is assumed. *)
Variable number : F -> Prop.
Variable ge : F -> F -> bool.
Hypothesis gt_irrefl : forall a, number a -> gt a a = false.
Hypothesis gt_trans :
  forall a b c, number a -> number b -> number c ->
    gt a b = true -> gt b c = true -> gt a c = true.
Hypothesis gt_cotrans :
  forall a b c, number a -> number b -> number c ->
    gt a c = true -> gt a b = true \/ gt b c = true.
Hypothesis ge_not_lt :
  forall a b, number a -> number b -> ge a b = negb (gt b a).

(** The log likelihoods of the results are numbers. *)
Abbreviation numbers := (Forall (fun r : result => number (snd r))).

(** **** The best of a list of results *)

Lemma numbers_lookup (rs : list result) k r :
  numbers rs -> rs !! k = Some r -> number (snd r).
Proof. intros N E. exact (Forall_lookup_1 _ _ _ _ N E). Qed.

Lemma best_of_single (r : result) : number (snd r) -> best_of [r] r.
Proof.
  intros N. exists 0%nat. split; [reflexivity|]. split.
  - intros [|j] r' E; cbn in E; [|destruct j; discriminate E].
    injection E as <-. apply gt_irrefl, N.
  - intros j r' L. lia.
Qed.

Lemma best_of_keep (rs : list result) (cur r : result) :
  best_of rs cur -> gt (snd r) (snd cur) = false ->
  best_of (rs ++ [r]) cur.
Proof.
  intros (k & Hk & Max & Early) N. exists k.
  split; [apply lookup_app_l_Some, Hk|]. split.
  - intros j r' E. apply lookup_app_Some in E as [E|[_ E]]; [eauto|].
    destruct (j - length rs)%nat as [|[|]]; cbn in E; try discriminate E.
    injection E as <-. exact N.
  - intros j r' L E. apply lookup_lt_Some in Hk.
    rewrite lookup_app_l in E by lia. eauto.
Qed.

Lemma best_of_new (rs : list result) (cur r : result) :
  numbers rs -> number (snd r) ->
  best_of rs cur -> gt (snd r) (snd cur) = true ->
  best_of (rs ++ [r]) r.
Proof.
  intros Nu Nr (k & Hk & Max & Early) G. exists (length rs).
  pose proof (numbers_lookup _ _ _ Nu Hk) as Nc.
  split; [rewrite lookup_app_r, Nat.sub_diag by lia; reflexivity|]. split.
  - intros j r' E. apply lookup_app_Some in E as [E|[_ E]].
    + pose proof (numbers_lookup _ _ _ Nu E) as N'.
      destruct (gt (snd r') (snd r)) eqn:X; [|reflexivity].
      rewrite <- (Max j r' E). symmetry.
      exact (gt_trans _ _ _ N' Nr Nc X G).
    + destruct (j - length rs)%nat as [|[|]]; cbn in E; try discriminate E.
      injection E as <-. apply gt_irrefl, Nr.
  - intros j r' L E. rewrite lookup_app_l in E by lia.
    pose proof (numbers_lookup _ _ _ Nu E) as N'.
    destruct (gt_cotrans _ (snd r') _ Nr N' Nc G) as [X|X]; [exact X|].
    rewrite (Max j r' E) in X. discriminate X.
Qed.

(** Among numbers, the best result has the maximum log likelihood. *)
Lemma best_of_maximum (rs : list result) (r : result) :
  numbers rs -> best_of rs r -> maximum_of ge rs (snd r).
Proof.
  intros Nu (k & Hk & Max & _). split.
  - exists (fst r). rewrite <- surjective_pairing.
    apply list_elem_of_In. eapply list_elem_of_lookup_2, Hk.
  - intros r' [j E]%list_elem_of_In%list_elem_of_lookup_1.
    rewrite ge_not_lt, (Max j r' E); [reflexivity| |].
    + exact (numbers_lookup _ _ _ Nu Hk).
    + exact (numbers_lookup _ _ _ Nu E).
Qed.

(** **** One result saved, and many *)

(** What a step does to an estimator that has nothing stored, or has a
    result stored. *)
Lemma save_result_step (r : result) (self : estimator) :
  mle self = None \/ is_Some (stored self) ->
  exists self',
    save_result r self = (self', inr tt) /\
    inference_model self' = inference_model self /\
    optimizer self' = optimizer self /\ data self' = data self /\
    match stored self with
    | None => stored self' = Some r
    | Some cur =>
        if gt (snd r) (snd cur) then stored self' = Some r
        else self' = self
    end.
Proof.
  unfold Mle.save_result, stored. destruct r as [m s].
  destruct (mle self) as [m0|] eqn:M.
  - intros [[=]|[cur S]].
    destruct (max_log_like self) as [b|] eqn:B; [|discriminate S].
    cbn [snd]. destruct (gt s b).
    + eexists. split; [reflexivity|]. auto.
    + exists self. repeat split.
  - intros _. eexists. split; [reflexivity|]. auto.
Qed.

Lemma save_results_best (rs : list result) :
  forall (done : list result) (self : estimator),
  numbers (done ++ rs) ->
  (done = [] /\ stored self = None /\ mle self = None) \/
  (exists cur, stored self = Some cur /\ best_of done cur) ->
  exists self',
    save_results rs self = (self', inr tt) /\
    inference_model self' = inference_model self /\
    optimizer self' = optimizer self /\ data self' = data self /\
    match done ++ rs with
    | [] => self' = self
    | _ => exists cur, stored self' = Some cur /\ best_of (done ++ rs) cur
    end.
Proof.
  induction rs as [|r rs IH]; intros done self Nu Inv.
  - exists self. split; [reflexivity|]. rewrite app_nil_r.
    destruct Inv as [(-> & _ & _)|(cur & S & B)]; [auto|].
    repeat split. destruct done; [|eauto].
    destruct B as (k & Hk & _). discriminate Hk.
  - destruct (save_result_step r self) as (self1 & E1 & I1 & O1 & D1 & St).
    { destruct Inv as [(_ & _ & M)|(cur & S & _)]; [left|right]; eauto. }
    cbn [Mle.save_results]. rewrite E1.
    pose proof (proj1 (Forall_app _ _ _) Nu) as [Nd Nrs].
    pose proof (List.Forall_inv Nrs) as Nr. cbn beta in Nr.
    destruct (IH (done ++ [r]) self1) as (self' & E & I & O & D & B).
    { rewrite <- app_assoc. exact Nu. }
    { right. destruct Inv as [(-> & S & _)|(cur & S & B)]; rewrite S in St.
      - exists r. split; [exact St|apply best_of_single, Nr].
      - destruct (gt (snd r) (snd cur)) eqn:G.
        + exists r. split; [exact St|]. eapply best_of_new; eauto.
        + subst self1. exists cur. split; [exact S|].
          apply best_of_keep; assumption. }
    exists self'. split; [exact E|]. rewrite <- app_assoc in B. cbn in B.
    repeat split; try congruence.
    destruct (done ++ r :: rs) eqn:X; [|exact B].
    destruct done; discriminate X.
Qed.

Lemma save_result_frame (r : result) (self self' : estimator) res :
  save_result r self = (self', res) ->
  inference_model self' = inference_model self /\
  optimizer self' = optimizer self /\ data self' = data self.
Proof.
  unfold Mle.save_result. destruct r as [m s].
  destruct (mle self); [destruct (max_log_like self) as [b|];
                        [destruct (gt s b)|]|];
    intros [= <- _]; auto.
Qed.

Lemma optimization_loop_save d starts : forall (self0 self : estimator),
  inference_model self = inference_model self0 ->
  optimizer self = optimizer self0 ->
  optimization_loop gt neg d starts self =
    save_results (map (optimization_result neg self0 d) starts) self.
Proof.
  induction starts as [|x0 starts IH]; intros self0 self I O;
    [reflexivity|].
  cbn [optimization_loop map Mle.save_results].
  replace (optimization_result neg self d x0)
    with (optimization_result neg self0 d x0)
    by (unfold optimization_result, _evaluate_func_to_minimize;
        rewrite I, O; reflexivity).
  destruct (save_result _ self) as [self1 [e|[]]] eqn:S; [reflexivity|].
  apply save_result_frame in S as (I1 & O1 & _).
  apply IH; congruence.
Qed.

Lemma fit_loop_save d f turns : forall (self0 self : estimator),
  inference_model self = inference_model self0 ->
  fit_loop gt d f turns self =
    save_results (map (fit_result self0 d f) turns) self.
Proof.
  induction turns as [|t turns IH]; intros self0 self I; [reflexivity|].
  cbn [fit_loop map Mle.save_results].
  replace (fit_result self d f t) with (fit_result self0 d f t)
    by (unfold fit_result; rewrite I; reflexivity).
  destruct (save_result _ self) as [self1 [e|[]]] eqn:S; [reflexivity|].
  apply save_result_frame in S as (I1 & _ & _).
  apply IH; congruence.
Qed.

(** [run] saves the results of its trials, one after the other. *)
Lemma run_save d (self : estimator) rs :
  trials neg initial_guesses d self = inr rs ->
  run gt neg initial_guesses d self = save_results rs (with_data self d).
Proof.
  unfold trials, run. cbn [inference_model with_data n_optimizations
                           initial_parameters].
  destruct (fit (inference_model self)) as [f|].
  - unfold _run_distribution_fit.
    destruct (n_optimizations self) as [n|]; [|intros [=]].
    intros [= <-]. apply fit_loop_save. reflexivity.
  - unfold _run_optimization.
    destruct (starting_points initial_guesses (with_data self d)
                (initial_parameters self) (n_optimizations self))
      as [e|starts]; [intros [=]|].
    intros [= <-]. apply optimization_loop_save; reflexivity.
Qed.

Lemma save_results_app (l : list result) (r : result) (self : estimator) a :
  save_results l self = (a, inr tt) ->
  save_results (l ++ [r]) self = save_result r a.
Proof.
  revert self. induction l as [|r0 l IH]; intros self; cbn.
  - intros [= ->]. destruct (save_result r a) as [b [e|[]]]; reflexivity.
  - destruct (save_result r0 self) as [self1 [e|[]]]; [intros [=]|].
    apply IH.
Qed.

Lemma gt_asym a b : number a -> number b -> gt a b = true -> gt b a = false.
Proof.
  intros Na Nb G. destruct (gt b a) eqn:X; [|reflexivity].
  rewrite <- (gt_irrefl a Na). symmetry. exact (gt_trans _ _ _ Na Nb Na G X).
Qed.

(** **** The claim on the estimator *)

(** C9, as the code has it.  Let the log likelihoods that a [run]
    compares be numbers, none of them a not-a-number.  On an estimator
    that has no result yet, as the constructor leaves it, the [run]
    returns, and afterwards [max_log_like] is the maximum of the log
    likelihoods of its starts (or fit trials) and [mle] the vector of the
    earliest start that has it.  On an estimator that holds the result of
    an earlier run, that result is not reset: it competes as if it were the
    first start, so that [max_log_like] is the maximum over it and the
    starts.  While the starts are processed, a start replaces what is
    stored exactly if its log likelihood is greater than the stored one, so
    that the stored log likelihood never decreases. *)
Theorem run_keeps_best (d : Data) (self : estimator) (rs : list result) :
  mle self = None \/ is_Some (stored self) ->
  trials neg initial_guesses d self = inr rs ->
  numbers (previous self ++ rs) ->
  exists self',
    run gt neg initial_guesses d self = (self', inr tt) /\
    (let kept all :=
       exists m s, mle self' = Some m /\ max_log_like self' = Some s /\
                   best_of all (m, s) /\ maximum_of ge all s in
     match stored self, rs with
     | None, [] => self' = with_data self d
     | None, _ => kept rs
     | Some cur, _ => kept (cur :: rs)
     end) /\
    forall n r, rs !! n = Some r ->
      let a := fst (save_results (take n rs) (with_data self d)) in
      let b := fst (save_results (take (S n) rs) (with_data self d)) in
      match stored a with
      | None => stored b = Some r
      | Some cur =>
          (if gt (snd r) (snd cur) then stored b = Some r else b = a) /\
          forall new, stored b = Some new -> gt (snd cur) (snd new) = false
      end.
Proof.
  intros Cons T Nu. rewrite (run_save d self rs T).
  assert (Inv : forall l, numbers (previous self ++ l) ->
    exists a, save_results l (with_data self d) = (a, inr tt) /\
              (mle a = None \/ is_Some (stored a)) /\
              (forall cur, stored a = Some cur -> number (snd cur)) /\
              match previous self ++ l with
              | [] => a = with_data self d
              | _ => exists cur, stored a = Some cur /\
                                 best_of (previous self ++ l) cur
              end).
  { intros l Nl.
    destruct (save_results_best l (previous self) (with_data self d) Nl)
      as (a & E & _ & _ & _ & B).
    { unfold previous. change (stored (with_data self d)) with (stored self).
      destruct (stored self) as [cur|] eqn:S.
      - right. exists cur. split; [reflexivity|]. apply best_of_single.
        unfold previous in Nl. rewrite S in Nl.
        exact (List.Forall_inv Nl).
      - left. destruct Cons as [M|[c X]]; [auto|discriminate X]. }
    exists a. split; [exact E|].
    destruct (previous self ++ l) eqn:X.
    - subst a. split; [exact Cons|]. split; [|reflexivity].
      intros cur S. change (stored (with_data self d)) with (stored self) in S.
      unfold previous in X. rewrite S in X. discriminate X.
    - destruct B as (cur & S & B). split; [right; eauto|].
      split; [|eauto]. intros cur' S'. rewrite S in S'. injection S' as <-.
      destruct B as (k & Hk & _).
      exact (numbers_lookup _ _ _ Nl Hk). }
  destruct (Inv rs Nu) as (self' & E & _ & _ & B). exists self'.
  split; [exact E|]. split.
  - cbn zeta. unfold previous in B, Nu.
    assert (K : forall all, numbers all ->
              (exists cur, stored self' = Some cur /\ best_of all cur) ->
              exists m s, mle self' = Some m /\ max_log_like self' = Some s /\
                          best_of all (m, s) /\ maximum_of ge all s).
    { intros all Na ([m s] & S & Bo). exists m, s. unfold stored in S.
      destruct (mle self'), (max_log_like self'); try discriminate S.
      injection S as -> ->. split; [reflexivity|]. split; [reflexivity|].
      split; [exact Bo|]. exact (best_of_maximum _ _ Na Bo). }
    destruct (stored self) as [cur|]; cbn in B, Nu.
    + apply K; assumption.
    + destruct rs; [exact B|]. apply K; assumption.
  - intros n r Hn. cbn zeta.
    assert (Nt : numbers (previous self ++ take n rs)).
    { apply Forall_app in Nu as [N1 N2]. apply Forall_app.
      split; [exact N1|apply Forall_take, N2]. }
    destruct (Inv (take n rs) Nt) as (a & Ea & Ca & Na & _).
    rewrite (take_S_r rs n r Hn), (save_results_app _ r _ a Ea), Ea.
    cbn [fst].
    destruct (save_result_step r a Ca) as (b & Eb & _ & _ & _ & St).
    rewrite Eb. cbn [fst].
    destruct (stored a) as [cur|] eqn:Sa; [|exact St]. split; [exact St|].
    pose proof (Na cur eq_refl) as Nc.
    assert (Nr : number (snd r)).
    { apply Forall_app in Nu as [_ N2]. exact (numbers_lookup _ _ _ N2 Hn). }
    intros new Sn. destruct (gt (snd r) (snd cur)) eqn:G.
    + rewrite St in Sn. injection Sn as <-. apply gt_asym; assumption.
    + subst b. rewrite Sa in Sn. injection Sn as <-. apply gt_irrefl, Nc.
Qed.

End Estimator.

(** **** The estimator on concrete models *)

Lemma float_gt_irrefl a : is_number a -> float_gt a a = false.
Proof.
  destruct a as [|z]; [reflexivity|]. intros _. cbn.
  rewrite Z.gtb_ltb. apply Z.ltb_irrefl.
Qed.

Lemma float_gt_trans a b c :
  is_number a -> is_number b -> is_number c ->
  float_gt a b = true -> float_gt b c = true -> float_gt a c = true.
Proof.
  destruct a, b, c; cbn; try discriminate. intros _ _ _.
  rewrite !Z.gtb_ltb, !Z.ltb_lt. lia.
Qed.

Lemma float_gt_cotrans a b c :
  is_number a -> is_number b -> is_number c ->
  float_gt a c = true -> float_gt a b = true \/ float_gt b c = true.
Proof.
  destruct a, b, c; cbn; try discriminate; try congruence. intros _ _ _.
  rewrite !Z.gtb_ltb, !Z.ltb_lt. lia.
Qed.

Lemma float_ge_not_lt a b :
  is_number a -> is_number b -> float_ge a b = negb (float_gt b a).
Proof.
  destruct a, b; cbn; try congruence. intros _ _.
  rewrite Z.geb_leb, Z.gtb_ltb. apply Z.leb_antisym.
Qed.

(** C9 fails on an estimator that holds the result of an earlier run: the
    four starts of the new run have log likelihoods of at most minus one,
    and [max_log_like] stays at ten, which is the log likelihood of none
    of them.  It fails as well on a new estimator whose first start has a
    log likelihood that is not a number: no later start replaces it, and
    [max_log_like] stays a not-a-number, which is not at least the minus
    one of the second start. *)
Lemma run_does_not_keep_maximum :
  (let rs := [([1], -4); ([2], -1); ([4], -1); ([5], -4)] in
   trials Z.opp no_guesses tt stale = inr rs /\
   exists self',
     run Z.gtb Z.opp no_guesses tt stale = (self', inr tt) /\
     mle self' = Some [8] /\ max_log_like self' = Some 10 /\
     ~ maximum_of Z.geb rs 10) /\
  (let rs := [([num 0], nan); ([num 2], num (-1))] in
   trials float_neg no_guesses_float tt (fresh_float [0; 2]) = inr rs /\
   exists self',
     run float_gt float_neg no_guesses_float tt (fresh_float [0; 2])
       = (self', inr tt) /\
     mle self' = Some [num 0] /\ max_log_like self' = Some nan /\
     float_ge nan (num (-1)) = false /\
     ~ maximum_of float_ge rs nan).
Proof.
  cbn zeta. split.
  - split; [reflexivity|]. eexists. split; [reflexivity|].
    split; [reflexivity|]. split; [reflexivity|].
    intros [[m In10] _]. cbn in In10.
    repeat (destruct In10 as [[=]|In10]). exact In10.
  - split; [reflexivity|]. eexists. split; [reflexivity|].
    split; [reflexivity|]. split; [reflexivity|]. split; [reflexivity|].
    intros [_ Ge]. specialize (Ge ([num 2], num (-1))).
    cbn in Ge. discriminate Ge. right. left. reflexivity.
Qed.

(** Four starts on a model whose log likelihood may be a not-a-number,
    but is a number at each of them: the second and the third are both
    best, and the second is kept. *)
Lemma run_keeps_best_witness :
  let rs := [([num 1], num (-4)); ([num 2], num (-1));
             ([num 4], num (-1)); ([num 5], num (-4))] in
  mle (fresh_float [1; 2; 4; 5]) = None /\
  trials float_neg no_guesses_float tt (fresh_float [1; 2; 4; 5]) = inr rs /\
  Forall (fun r => is_number (snd r))
         (previous (fresh_float [1; 2; 4; 5]) ++ rs) /\
  exists self',
    run float_gt float_neg no_guesses_float tt (fresh_float [1; 2; 4; 5])
      = (self', inr tt) /\
    mle self' = Some [num 2] /\ max_log_like self' = Some (num (-1)) /\
    best_of float_gt rs ([num 2], num (-1)) /\
    maximum_of float_ge rs (num (-1)).
Proof.
  cbn zeta. split; [reflexivity|]. split; [reflexivity|].
  assert (N : Forall (fun r : list float * float => is_number (snd r))
                (previous (fresh_float [1; 2; 4; 5]) ++
                 [([num 1], num (-4)); ([num 2], num (-1));
                  ([num 4], num (-1)); ([num 5], num (-4))]))
    by (repeat (apply List.Forall_cons; [discriminate|]);
        apply List.Forall_nil).
  split; [exact N|].
  destruct (run_keeps_best float_gt float_neg no_guesses_float
              is_number float_ge float_gt_irrefl float_gt_trans
              float_gt_cotrans float_ge_not_lt tt (fresh_float [1; 2; 4; 5])
              [([num 1], num (-4)); ([num 2], num (-1));
               ([num 4], num (-1)); ([num 5], num (-4))]
              (or_introl eq_refl) eq_refl N)
    as (self' & R & (m & s & Hm & Hs & B & M) & _).
  exists self'. split; [exact R|].
  vm_compute in R. injection R as <-.
  injection Hm as <-. injection Hs as <-.
  split; [reflexivity|]. split; [reflexivity|]. split; [exact B|exact M].
Defined.

(** **** More on the estimator: failures, empty runs and stale results *)

Section EstimatorMore.
Context {F Data : Type}.
Variable gt : F -> F -> bool.
Variable neg : F -> F.
Variable initial_guesses : Z -> exn + list (list F).

Abbreviation estimator := (MLE F Data).
Abbreviation result := (list F * F)%type.
Abbreviation save_result := (Mle.save_result gt).
Abbreviation save_results := (Mle.save_results gt).

(** [run] in terms of its trials, also when there are none to be had. *)
Lemma run_trials d (self : estimator) :
  run gt neg initial_guesses d self =
    match trials neg initial_guesses d self with
    | inl e => (with_data self d, inl e)
    | inr rs => save_results rs (with_data self d)
    end.
Proof.
  destruct (trials neg initial_guesses d self) as [e|rs] eqn:T;
    [|apply (run_save gt neg initial_guesses), T].
  unfold trials, run in *.
  cbn [inference_model with_data n_optimizations initial_parameters] in *.
  destruct (fit (inference_model self)) as [f|].
  - unfold _run_distribution_fit.
    destruct (n_optimizations self) as [n|]; [discriminate T|].
    injection T as <-. reflexivity.
  - unfold _run_optimization.
    destruct (starting_points initial_guesses (with_data self d)
                (initial_parameters self) (n_optimizations self))
      as [e'|starts]; [|discriminate T].
    injection T as <-. reflexivity.
Qed.

(** Initial parameters of the wrong width.  If the model has no closed
    form fit and the [initial_parameters] do not have [n_parameters]
    columns (elements, when there is one axis), [run] raises [ValueError]
    before any start; it has stored the data, and [mle] and
    [max_log_like] are as they were. *)
Theorem run_wrong_dimensions d (self : estimator) a :
  fit (inference_model self) = None ->
  initial_parameters self = Some a ->
  match a with
  | Array1 v => length v
  | Array2 ncols _ => ncols
  end <> n_parameters (inference_model self) ->
  run gt neg initial_guesses d self =
    (with_data self d, inl (ValueError "UQpy: Wrong dimensions in x0")).
Proof.
  intros Hf Hi Ne. unfold run, _run_optimization, starting_points.
  cbn [inference_model with_data n_optimizations initial_parameters].
  rewrite Hf, Hi.
  destruct a as [v|ncols rows].
  - destruct (Nat.eqb_spec (length v) (n_parameters (inference_model self)))
      as [E|_]; [destruct (Ne E)|reflexivity].
  - destruct (Nat.eqb_spec ncols (n_parameters (inference_model self)))
      as [E|_]; [destruct (Ne E)|reflexivity].
Qed.

(** A run without trials.  If the model has a closed form fit and
    [n_optimizations] is zero or negative, [run] returns without a single
    trial: it has stored the data and nothing else, so that a new
    estimator has no [mle] afterwards. *)
Theorem run_without_trials d (self : estimator) f n :
  fit (inference_model self) = Some f ->
  n_optimizations self = Some n ->
  n <= 0 ->
  run gt neg initial_guesses d self = (with_data self d, inr tt) /\
  (mle self = None ->
   forall o,
     __init__ gt neg initial_guesses (inference_model self) (Some n)
       (initial_parameters self) (Some d) o =
       inr {| inference_model := inference_model self; optimizer := o;
              data := Some d; n_optimizations := Some n;
              initial_parameters := initial_parameters self;
              mle := None; max_log_like := None |}).
Proof.
  intros Hf Hn L.
  assert (Z0 : Z.to_nat n = 0%nat) by lia. split.
  - unfold run, _run_distribution_fit.
    cbn [inference_model with_data n_optimizations].
    rewrite Hf, Hn, Z0. reflexivity.
  - intros _ o. unfold __init__, run, _run_distribution_fit.
    cbn [inference_model with_data n_optimizations].
    rewrite Hf, Z0. reflexivity.
Qed.

Lemma save_results_none_better (rs : list result) : forall (self : estimator) cur,
  stored self = Some cur ->
  (forall r, r ∈ rs -> gt (snd r) (snd cur) = false) ->
  save_results rs self = (self, inr tt).
Proof.
  induction rs as [|r rs IH]; intros self cur S N; [reflexivity|].
  cbn [Mle.save_results]. unfold Mle.save_result. destruct r as [m s].
  unfold stored in S.
  destruct (mle self) as [m0|] eqn:M; [|discriminate S].
  destruct (max_log_like self) as [b|] eqn:B; [|discriminate S].
  injection S as <-. pose proof (N (m, s) ltac:(left)) as X.
  cbn [snd] in X. rewrite X.
  apply (IH self (m0, b)).
  - unfold stored. rewrite M, B. reflexivity.
  - intros r In. apply N. right. exact In.
Qed.

(** A result of earlier data outlives a run.  If an estimator holds a
    result and no start of a run on other data has a log likelihood
    greater than the stored one, the run returns with [mle] and
    [max_log_like] as they were, though [data] is the new data: the two
    then belong to data that the estimator no longer holds. *)
Theorem run_keeps_stale_result d (self : estimator) rs cur :
  stored self = Some cur ->
  trials neg initial_guesses d self = inr rs ->
  (forall r, r ∈ rs -> gt (snd r) (snd cur) = false) ->
  run gt neg initial_guesses d self = (with_data self d, inr tt).
Proof.
  intros S T N. rewrite run_trials, T.
  apply (save_results_none_better rs (with_data self d) cur); assumption.
Qed.

Lemma save_results_elem (rs : list result) : forall (self self' : estimator),
  save_results rs self = (self', inr tt) ->
  (mle self' = mle self /\ max_log_like self' = max_log_like self) \/
  exists r, r ∈ rs /\ mle self' = Some (fst r) /\
            max_log_like self' = Some (snd r).
Proof.
  induction rs as [|r rs IH]; intros self self'; cbn [Mle.save_results].
  - intros [= <-]. left. auto.
  - destruct (save_result r self) as [self1 [e|[]]] eqn:S1; [intros [=]|].
    intros [[A B]|(r' & In & A & B)]%IH.
    + unfold Mle.save_result in S1. destruct r as [m s].
      destruct (mle self) as [m0|] eqn:M.
      * destruct (max_log_like self) as [b|] eqn:Bs; [|discriminate S1].
        destruct (gt s b); injection S1 as <-.
        -- right. exists (m, s). split; [left|]. auto.
        -- left. split; congruence.
      * injection S1 as <-. right. exists (m, s). split; [left|]. auto.
    + right. exists r'. split; [right; exact In|]. auto.
Qed.

(** The two attributes belong together.  On a new estimator, with an
    optimizer that reports as [res.fun] the value of the function at
    [res.x], and a negation that undoes itself, a [run] that returns
    leaves as [max_log_like] the log likelihood of [mle] on the data of
    the run. *)
Theorem run_max_is_likelihood_of_mle d (self self' : estimator) m :
  (forall a, neg (neg a) = a) ->
  (forall f x0, fun_ (optimize (optimizer self) f x0)
                = f (x (optimize (optimizer self) f x0))) ->
  mle self = None ->
  run gt neg initial_guesses d self = (self', inr tt) ->
  mle self' = Some m ->
  max_log_like self' =
    Some (evaluate_log_likelihood (inference_model self) m d).
Proof.
  intros Inv Opt M R Hm. rewrite run_trials in R.
  destruct (trials neg initial_guesses d self) as [e|rs] eqn:T;
    [discriminate R|].
  apply save_results_elem in R as [[A _]|(r & In & A & B)].
  - cbn in A. congruence.
  - assert (E : snd r = evaluate_log_likelihood (inference_model self)
                           (fst r) d).
    { unfold trials in T. destruct (fit (inference_model self)) as [f|].
      - destruct (n_optimizations self) as [n|]; [|discriminate T].
        injection T as <-. apply list_elem_of_fmap in In as (t & -> & _).
        reflexivity.
      - destruct (starting_points initial_guesses (with_data self d)
                    (initial_parameters self) (n_optimizations self))
          as [e|starts]; [discriminate T|].
        injection T as <-. apply list_elem_of_fmap in In as (x0 & -> & _).
        unfold optimization_result. cbn [fst snd with_data optimizer].
        rewrite Opt. unfold _evaluate_func_to_minimize.
        cbn [inference_model with_data]. apply Inv. }
    rewrite B, E. congruence.
Qed.

End EstimatorMore.

(** Starting points of two columns for a model of one parameter. *)
Lemma run_wrong_dimensions_witness :
  fit (inference_model too_wide) = None /\
  run Z.gtb Z.opp no_guesses tt too_wide =
    (with_data too_wide tt, inl (ValueError "UQpy: Wrong dimensions in x0")).
Proof.
  split; [reflexivity|].
  apply (run_wrong_dimensions Z.gtb Z.opp no_guesses tt too_wide
           (Array2 2 [[1; 2]; [3; 4]]) eq_refl eq_refl).
  cbn. lia.
Defined.

(** No trial for a model with a fit and [n_optimizations = 0]. *)
Lemma run_without_trials_witness :
  0 <= 0 /\
  run Z.gtb Z.opp no_guesses tt no_trial = (with_data no_trial tt, inr tt) /\
  mle (with_data no_trial tt) = None.
Proof.
  split; [lia|]. split; [|reflexivity].
  exact (proj1 (run_without_trials Z.gtb Z.opp no_guesses tt no_trial
                  (fun _ _ => [7]) 0 eq_refl eq_refl ltac:(lia))).
Defined.

(** An estimator that holds a result of log likelihood ten keeps it over
    the four starts, none of which comes above zero. *)
Lemma run_keeps_stale_result_witness :
  stored stale = Some ([8], 10) /\
  run Z.gtb Z.opp no_guesses tt stale = (with_data stale tt, inr tt).
Proof.
  split; [reflexivity|].
  apply (run_keeps_stale_result Z.gtb Z.opp no_guesses tt stale
           [([1], -4); ([2], -1); ([4], -1); ([5], -4)] ([8], 10)
           eq_refl eq_refl).
  intros r In. repeat (apply elem_of_cons in In as [->|In]; [reflexivity|]).
  apply elem_of_nil in In. destruct In.
Defined.

(** The four starts: the log likelihood stored is that of the vector
    stored. *)
Lemma run_max_is_likelihood_of_mle_witness :
  let self' := fst (run Z.gtb Z.opp no_guesses tt fresh) in
  (forall a, - - a = a) /\
  run Z.gtb Z.opp no_guesses tt fresh = (self', inr tt) /\
  mle self' = Some [2] /\
  max_log_like self' = Some (evaluate_log_likelihood parabola [2] tt).
Proof.
  cbn zeta.
  assert (R : run Z.gtb Z.opp no_guesses tt fresh
              = (fst (run Z.gtb Z.opp no_guesses tt fresh), inr tt))
    by reflexivity.
  assert (Hm : mle (fst (run Z.gtb Z.opp no_guesses tt fresh)) = Some [2])
    by reflexivity.
  split; [exact Z.opp_involutive|]. split; [exact R|]. split; [exact Hm|].
  exact (run_max_is_likelihood_of_mle Z.gtb Z.opp no_guesses tt fresh _ [2]
           Z.opp_involutive (fun f x0 => eq_refl) eq_refl R Hm).
Defined.

End Mle_Theory.
